(** * Jobly: the partial-update helper, the filter builders and the
    Company / Job models, embedded and verified

    Sources embedded here:
    - helpers/sql.js      ([sqlForPartialUpdate])
    - models/company.js   ([Company.create], [Company.findAll], [Company.get],
                           [Company.update], [Company.remove])
    - models/job.js       ([Job.create], [Job.findAll], [Job.get], [Job.update],
                           [Job.remove])

    JavaScript objects whose enumeration order matters (the field mapping
    handed to [sqlForPartialUpdate]) are association lists in enumeration
    order; objects used as plain records (filters, request data, result
    rows) are finite maps from property name to value.  The asynchronous
    model methods run their queries one after the other, so they are
    functions in a state-and-exception monad over the database. *)

From Stdlib Require Import String Ascii ZArith List.
From stdpp Require Import base gmap strings list pretty.

(** ** JavaScript values *)

(** The primitive values the models receive and the driver returns.
    Numbers are the integers that JavaScript holds exactly and prints in
    plain decimal digits (magnitude below 2^53): no fractions, no NaN, no
    exponent form. *)
Inductive jsval :=
| JUndefined
| JNull
| JBool (b : bool)
| JNum (n : Z)
| JStr (s : string).

#[global] Instance jsval_eq_dec : EqDecision jsval.
Proof. solve_decision. Defined.

(** [if (v)]: ToBoolean. *)
Definition truthy (v : jsval) : bool :=
  match v with
  | JUndefined | JNull => false
  | JBool b => b
  | JNum n => negb (Z.eqb n 0)
  | JStr s => negb (String.eqb s EmptyString)
  end.

(** Interpolation of a value in a template literal: ToString. *)
Definition to_string (v : jsval) : string :=
  match v with
  | JUndefined => "undefined"
  | JNull => "null"
  | JBool true => "true"
  | JBool false => "false"
  | JNum n => pretty n
  | JStr s => s
  end.

(** An object whose own enumerable properties are listed in the order
    [Object.keys] enumerates them. *)
Abbreviation obj := (list (string * jsval)).

Definition Object_keys (o : obj) : list string := o.*1.
Definition Object_values (o : obj) : list jsval := o.*2.

(** [o.k] on an object used as a record: [undefined] when [k] is absent. *)
Definition prop (o : gmap string jsval) (k : string) : jsval :=
  default JUndefined (o !! k).

(** [Array.prototype.join]. *)
Definition join (sep : string) (l : list string) : string := String.concat sep l.

(** The double quote and the line feed, as one-character strings. *)
Definition dq : string := String "034" EmptyString.
Definition nl : string := String "010" EmptyString.

(** ** Errors and outcomes *)

(** [BadRequestError] and [NotFoundError] come from expressError.js;
    [ReferenceError] is the runtime's own; [DatabaseError] stands for any
    failure the database driver raises. *)
Inductive error :=
| BadRequestError (message : string)
| NotFoundError (message : string)
| ReferenceError (message : string)
| DatabaseError.

Inductive outcome (A : Type) :=
| Returns (a : A)
| Throws (e : error).
Arguments Returns {A} a.
Arguments Throws {A} e.

(** ** helpers/sql.js *)

Record update_sql := { setCols : string; values : list jsval }.

(** What a plain object inherits from Object.prototype, each property
    with the text a template literal prints for its value: the built-in
    functions print as native code, and __proto__ reads the prototype
    object itself.  All of them are truthy. *)
Definition Object_prototype (k : string) : option string :=
  if bool_decide (k = "constructor")
  then Some "function Object() { [native code] }"
  else if bool_decide (k = "__proto__")
  then Some "[object Object]"
  else if bool_decide (k ∈ ["__defineGetter__"; "__defineSetter__"; "hasOwnProperty";
                            "__lookupGetter__"; "__lookupSetter__"; "isPrototypeOf";
                            "propertyIsEnumerable"; "toString"; "valueOf";
                            "toLocaleString"])
  then Some ("function " +:+ k +:+ "() { [native code] }")
  else None.

(** [jsToSql[colName] || colName], as the template literal prints it.
    [jsToSql] holds the own properties of the mapping object, a plain
    object as the object literals of the two callers are: an own
    translation wins when it is not empty, an own empty one gives the
    key itself, and a key the mapping does not hold reads the inherited
    property of that name when there is one, the key itself otherwise. *)
Definition sql_column (jsToSql : gmap string string) (colName : string) : string :=
  match jsToSql !! colName with
  | Some c => if String.eqb c EmptyString then colName else c
  | None => default colName (Object_prototype colName)
  end.

(** One assignment fragment, ["<column>"=$<position>]. *)
Definition fragment (column : string) (position : nat) : string :=
  dq +:+ column +:+ dq +:+ "=$" +:+ pretty position.

(** [keys.map((colName, idx) => `"${jsToSql[colName] || colName}"=$${idx + 1}`)]. *)
Definition cols (dataToUpdate : obj) (jsToSql : gmap string string) : list string :=
  imap (λ idx colName, fragment (sql_column jsToSql colName) (idx + 1))
       (Object_keys dataToUpdate).

Definition sqlForPartialUpdate (dataToUpdate : obj) (jsToSql : gmap string string)
  : outcome update_sql :=
  let keys := Object_keys dataToUpdate in
  if Nat.eqb (length keys) 0 then Throws (BadRequestError "No data")
  else Returns {| setCols := join ", " (cols dataToUpdate jsToSql);
                  values := Object_values dataToUpdate |}.

(** The SET list the text [setCols] denotes: one (column, position) pair
    per fragment. *)
Definition set_list (dataToUpdate : obj) (jsToSql : gmap string string)
  : list (string * nat) :=
  imap (λ idx colName, (sql_column jsToSql colName, idx + 1))
       (Object_keys dataToUpdate).

(** ** The database

    The models talk to PostgreSQL through [db.query(text, params)].  The
    store below gives the meaning of the statements the models issue, each
    taken in parsed form: the two tables, the columns the statements name,
    and the constraints the spec lists (unique company handles, unique job
    ids, a job's company_handle referencing a company).  The table
    declarations are not part of the sources, so the conversion a column
    applies to a bound parameter is a component of the store
    ([column_input]): [None] when the column's type rejects the value. *)

(** A result row, and a stored row: property or column name to value. *)
Abbreviation row := (gmap string jsval).

Inductive table := Companies | Jobs.

Record database := {
  column_input : table → string → jsval → option jsval;
  companies : list row;
  jobs : list row;
  jobs_id_seq : Z;
}.

(** The monad of the model methods: a database in, an outcome and a
    database out. *)
Definition M (A : Type) : Type := database → outcome A * database.

#[global] Instance M_ret : MRet M := λ A a db, (Returns a, db).
#[global] Instance M_bind : MBind M := λ A B f m db,
  match m db with
  | (Returns a, db') => f a db'
  | (Throws e, db') => (Throws e, db')
  end.
Definition throw {A : Type} (e : error) : M A := λ db, (Throws e, db).

Module Db.

Definition columns (t : table) : list string :=
  match t with
  | Companies => ["handle"; "name"; "description"; "num_employees"; "logo_url"]
  | Jobs => ["id"; "title"; "salary"; "equity"; "company_handle"]
  end.

Definition rows (db : database) (t : table) : list row :=
  match t with Companies => companies db | Jobs => jobs db end.

Definition set_rows (db : database) (t : table) (rs : list row) : database :=
  match t with
  | Companies => {| column_input := column_input db; companies := rs;
                    jobs := jobs db; jobs_id_seq := jobs_id_seq db |}
  | Jobs => {| column_input := column_input db; companies := companies db;
               jobs := rs; jobs_id_seq := jobs_id_seq db |}
  end.

(** Binding a parameter to a column: the driver sends [undefined] and
    [null] as NULL, anything else goes through the column's input
    conversion. *)
Definition bind (db : database) (t : table) (column : string) (v : jsval)
  : option jsval :=
  match v with
  | JUndefined | JNull => Some JNull
  | _ => column_input db t column v
  end.

(** SQL [a = b] in a WHERE clause: never true on NULL (a column a row
    does not hold reads as NULL). *)
Definition sql_eq (a b : jsval) : bool :=
  match a, b with
  | (JNull | JUndefined), _ | _, (JNull | JUndefined) => false
  | _, _ => bool_decide (a = b)
  end.

(** A select or RETURNING list: (column, result property) pairs. *)
Definition project (sel : list (string * string)) (r : row) : row :=
  list_to_map ((λ ca, (ca.2, prop r ca.1)) <$> sel).

(** The rows of [t] whose [column] equals the bound value [k]. *)
Definition matching (db : database) (t : table) (column : string) (k : jsval)
  : list row :=
  filter (λ r, sql_eq (prop r column) k = true) (rows db t).

(** The constraints: handles and job ids are keys, and every job
    references a company. *)
Definition consistent (db : database) : bool :=
  bool_decide (NoDup ((λ r, prop r "handle") <$> companies db))
  && bool_decide (NoDup ((λ r, prop r "id") <$> jobs db))
  && forallb (λ j, negb (bool_decide (matching db Companies "handle"
                                        (prop j "company_handle") = [])))
             (jobs db).

(** [SELECT sel FROM t WHERE column = $1] with parameters [[v]]. *)
Definition select_eq (t : table) (sel : list (string * string))
    (column : string) (v : jsval) : M (list row) := λ db,
  match bind db t column v with
  | None => (Throws DatabaseError, db)
  | Some k => (Returns (project sel <$> matching db t column k), db)
  end.

(** The parameters bound to the listed columns, in order. *)
Fixpoint bind_all (db : database) (t : table) (cvs : list (string * jsval))
  : option (list (string * jsval)) :=
  match cvs with
  | [] => Some []
  | (c, v) :: rest =>
      if bool_decide (c ∈ columns t) then
        match bind db t c v, bind_all db t rest with
        | Some v', Some rest' => Some ((c, v') :: rest')
        | _, _ => None
        end
      else None
  end.

(** Writing the bound values into a row, column by column. *)
Definition assign (cvs : list (string * jsval)) (r : row) : row :=
  foldl (λ acc cv, <[cv.1 := cv.2]> acc) r cvs.

(** A fresh row of [t]: every column NULL, except a job's id, which is
    drawn from the sequence. *)
Definition fresh_row (db : database) (t : table) : row :=
  let blank : row := list_to_map ((λ c, (c, JNull)) <$> columns t) in
  match t with
  | Companies => blank
  | Jobs => <["id" := JNum (jobs_id_seq db + 1)]> blank
  end.

Definition advance_seq (db : database) (t : table) : database :=
  match t with
  | Companies => db
  | Jobs => {| column_input := column_input db; companies := companies db;
               jobs := jobs db; jobs_id_seq := (jobs_id_seq db + 1)%Z |}
  end.

(** [INSERT INTO t (cols) VALUES ($1, ..., $n) RETURNING ret] with
    parameters [params].  A statement refused before it runs leaves the
    store as it was; one refused by a constraint leaves the tables as
    they were and does not give back the id it drew. *)
Definition insert (t : table) (into : list string) (ret : list (string * string))
    (params : list jsval) : M (list row) := λ db,
  if negb (Nat.eqb (length into) (length params)) then (Throws DatabaseError, db)
  else if negb (bool_decide (NoDup into)) then (Throws DatabaseError, db)
  else
    match bind_all db t (zip into params) with
    | None => (Throws DatabaseError, db)
    | Some cvs =>
        let r := assign cvs (fresh_row db t) in
        let db' := advance_seq (set_rows db t (rows db t ++ [r])) t in
        if consistent db' then (Returns [project ret r], db')
        else (Throws DatabaseError, advance_seq db t)
    end.

(** The value each assignment of a SET list refers to. *)
Fixpoint resolve (sets : list (string * nat)) (params : list jsval)
  : option (list (string * jsval)) :=
  match sets with
  | [] => Some []
  | (c, pos) :: rest =>
      match pos, resolve rest params with
      | S i, Some rest' =>
          match params !! i with
          | Some v => Some ((c, v) :: rest')
          | None => None
          end
      | _, _ => None
      end
  end.

(** The check of [UPDATE t SET sets WHERE key_column = $key_pos] against
    parameters [params], before any row is looked at: every position
    has a parameter, the columns are columns of [t], none is assigned
    twice, and every parameter is accepted by its column.  The result
    is the bound SET list and the bound key. *)
Definition check_update (db : database) (t : table) (sets : list (string * nat))
    (key_column : string) (key_pos : nat) (params : list jsval)
  : option (list (string * jsval) * jsval) :=
  match resolve sets params, resolve [(key_column, key_pos)] params with
  | Some cvs, Some [(_, key)] =>
      if negb (bool_decide (NoDup cvs.*1)) then None
      else
        match bind_all db t cvs, bind db t key_column key with
        | Some cvs', Some k => Some (cvs', k)
        | _, _ => None
        end
  | _, _ => None
  end.

(** [UPDATE t SET sets WHERE key_column = $key_pos RETURNING ret] with
    parameters [params].  The constraints are checked on the rows the
    statement writes, so a statement that matches no row writes nothing
    and returns no row; a rejected statement leaves the store as it
    was. *)
Definition update (t : table) (sets : list (string * nat)) (key_column : string)
    (key_pos : nat) (ret : list (string * string)) (params : list jsval)
  : M (list row) := λ db,
  match check_update db t sets key_column key_pos params with
  | None => (Throws DatabaseError, db)
  | Some (cvs, k) =>
      let hit r := sql_eq (prop r key_column) k in
      let hits := matching db t key_column k in
      match hits with
      | [] => (Returns [], db)
      | _ :: _ =>
          let rs' := (λ r, if hit r then assign cvs r else r) <$> rows db t in
          let db' := set_rows db t rs' in
          if consistent db'
          then (Returns (project ret <$> (assign cvs <$> hits)), db')
          else (Throws DatabaseError, db)
      end
  end.

(** A row of [t] holds the key [v] in [column]: [v] binds to a value
    that some row's column equals. *)
Definition holds_key (db : database) (t : table) (column : string) (v : jsval)
  : Prop :=
  ∃ k r, bind db t column v = Some k ∧ r ∈ rows db t
         ∧ sql_eq (prop r column) k = true.

(** What a LEFT JOIN pairs the left row [c] with: each right row it
    matches, or no right row when it matches none. *)
Definition join_block (db : database) (rt : table) (lcol rcol : string) (c : row)
  : list (row * option row) :=
  match filter (λ j, sql_eq (prop c lcol) (prop j rcol) = true) (rows db rt) with
  | [] => [(c, None)]
  | js => (λ j, (c, Some j)) <$> js
  end.

(** [FROM lt LEFT JOIN rt ON lt.lcol = rt.rcol]. *)
Definition left_join (db : database) (lt rt : table) (lcol rcol : string)
  : list (row * option row) :=
  rows db lt ≫= join_block db rt lcol rcol.

(** The right-hand columns of a joined row with no right row: NULL. *)
Definition null_row (sel : list (string * string)) : row :=
  list_to_map ((λ ca, (ca.2, JNull)) <$> sel).

(** [SELECT lsel, rsel FROM lt LEFT JOIN rt ON lt.lcol = rt.rcol
     WHERE lt.key_column = $1] with parameters [[v]]. *)
Definition select_left_join (lt rt : table) (lcol rcol : string)
    (lsel rsel : list (string * string)) (key_column : string) (v : jsval)
  : M (list row) := λ db,
  match bind db lt key_column v with
  | None => (Throws DatabaseError, db)
  | Some k =>
      let joined := left_join db lt rt lcol rcol in
      let kept := filter (λ cj, sql_eq (prop cj.1 key_column) k = true) joined in
      (Returns ((λ cj, project lsel cj.1
                       ∪ from_option (project rsel) (null_row rsel) cj.2) <$> kept),
       db)
  end.

(** What a DELETE of company rows does to the job rows that reference
    them.  It is set where the jobs table is declared, which is not part
    of the sources, so the methods that delete companies take it as an
    argument: [Restrict] refuses the DELETE, [Cascade] deletes the
    referencing jobs with the companies. *)
Inductive on_delete := Restrict | Cascade.

(** The job row [j] references one of the company rows [cs]. *)
Definition references (cs : list row) (j : row) : bool :=
  existsb (λ c, sql_eq (prop c "handle") (prop j "company_handle")) cs.

(** [DELETE FROM t WHERE key_column = $1 RETURNING ret] with parameters
    [[v]]: the rows that hold the key leave the table and are returned. *)
Definition delete (fk : on_delete) (t : table) (key_column : string)
    (ret : list (string * string)) (v : jsval) : M (list row) := λ db,
  match bind db t key_column v with
  | None => (Throws DatabaseError, db)
  | Some k =>
      let hits := matching db t key_column k in
      let kept := filter (λ r, sql_eq (prop r key_column) k = false) (rows db t) in
      match t, fk with
      | Jobs, _ => (Returns (project ret <$> hits), set_rows db Jobs kept)
      | Companies, Restrict =>
          if existsb (references hits) (jobs db) then (Throws DatabaseError, db)
          else (Returns (project ret <$> hits), set_rows db Companies kept)
      | Companies, Cascade =>
          (Returns (project ret <$> hits),
           set_rows (set_rows db Companies kept) Jobs
             (filter (λ j, references hits j = false) (jobs db)))
      end
  end.

End Db.

(** ** models/company.js *)

(** What [Company.get] returns: the company object after its job columns
    are deleted, and the array stored in its [jobs] property. *)
Record company_with_jobs := { company_fields : row; company_jobs : list row }.

(** A statement handed to [db.query]: its text and its parameters. *)
Record statement := { query : string; params : list jsval }.

Module Company.

Definition returning : list (string * string) :=
  [("handle", "handle"); ("name", "name"); ("description", "description");
   ("num_employees", "numEmployees"); ("logo_url", "logoUrl")].

Definition create (data : gmap string jsval) : M (option row) :=
  let handle := prop data "handle" in
  let name := prop data "name" in
  let description := prop data "description" in
  let numEmployees := prop data "numEmployees" in
  let logoUrl := prop data "logoUrl" in
  duplicateCheck ← Db.select_eq Companies [("handle", "handle")] "handle" handle;
  match head duplicateCheck with
  | Some _ => throw (BadRequestError ("Duplicate company: " +:+ to_string handle))
  | None =>
      result ← Db.insert Companies
                 ["handle"; "name"; "description"; "num_employees"; "logo_url"]
                 returning
                 [handle; name; description; numEmployees; logoUrl];
      let company := head result in
      mret company
  end.

(** The template literal [query] starts from. *)
Definition base_query : string :=
  nl +:+ "      SELECT handle," +:+ nl
  +:+ "             name," +:+ nl
  +:+ "             description," +:+ nl
  +:+ "             num_employees AS " +:+ dq +:+ "numEmployees" +:+ dq +:+ "," +:+ nl
  +:+ "             logo_url AS " +:+ dq +:+ "logoUrl" +:+ dq +:+ nl
  +:+ "      FROM companies" +:+ nl
  +:+ "    ".

(** The query text and parameter array [findAll] builds and hands to
    [db.query]; [arg] is [None] when the method is called without its
    argument, which the default [= {}] replaces by the empty object. *)
Definition findAll_statement (arg : option (gmap string jsval)) : statement :=
  let filters := default ∅ arg in
  let name := prop filters "name" in
  let minEmployees := prop filters "minEmployees" in
  let maxEmployees := prop filters "maxEmployees" in
  let query := base_query in
  let values : list jsval := [] in
  let '(query, values) :=
    if truthy name
    then (query +:+ " WHERE name ILIKE $1",
          values ++ [JStr ("%" +:+ to_string name +:+ "%")])
    else (query, values) in
  let '(query, values) :=
    if truthy minEmployees
    then (query +:+ (if negb (Nat.eqb (length values) 0)
                     then " AND num_employees >= $" +:+ pretty (length values + 1)
                     else " WHERE num_employees >= $1"),
          values ++ [minEmployees])
    else (query, values) in
  let '(query, values) :=
    if truthy maxEmployees
    then (query +:+ (if negb (Nat.eqb (length values) 0)
                     then " AND num_employees <= $" +:+ pretty (length values + 1)
                     else " WHERE num_employees <= $1"),
          values ++ [maxEmployees])
    else (query, values) in
  {| query := query; params := values |}.

(** The job columns [get] selects, with their aliases. *)
Definition job_columns : list (string * string) :=
  [("id", "job_id"); ("title", "job_title");
   ("salary", "job_salary"); ("equity", "job_equity")].

(** The callback of [companyRes.rows.map]: the job object of a joined
    row. *)
Definition job_object (r : row) : row :=
  {[ "id" := prop r "job_id"; "title" := prop r "job_title";
     "salary" := prop r "job_salary"; "equity" := prop r "job_equity" ]}.

Definition get (handle : jsval) : M company_with_jobs :=
  companyRes ← Db.select_left_join Companies Jobs "handle" "company_handle"
                 returning job_columns "handle" handle;
  match head companyRes with
  | None => throw (NotFoundError ("No company: " +:+ to_string handle))
  | Some company =>
      let jobs : list row := job_object <$> companyRes in
      let company := delete "job_id" company in
      let company := delete "job_title" company in
      let company := delete "job_salary" company in
      let company := delete "job_equity" company in
      mret {| company_fields := company; company_jobs := jobs |}
  end.

Definition jsToSql : gmap string string :=
  {[ "numEmployees" := "num_employees"; "logoUrl" := "logo_url" ]}.

(** The UPDATE goes to the database in parsed form: the SET list that
    [setCols] renders ([set_list], see [cols_render_set_list]), the
    position [handleVarIdx] of the key in the WHERE clause, and the
    parameters [[...values, handle]].  The text denotes this SET list
    when no column of the data holds a double quote, which is so whenever
    the columns are columns of the table; the properties of a returned
    update are stated for such data. *)
Definition update (handle : jsval) (data : obj) : M row :=
  match sqlForPartialUpdate data jsToSql with
  | Throws e => throw e
  | Returns r =>
      let handleVarIdx := length (values r) + 1 in
      result ← Db.update Companies (set_list data jsToSql) "handle" handleVarIdx
                 returning (values r ++ [handle]);
      match head result with
      | None => throw (NotFoundError ("No company: " +:+ to_string handle))
      | Some company => mret company
      end
  end.

(** [fk] is what the declaration of the jobs table says about deleting
    a company that jobs reference (see [Db.on_delete]). *)
Definition remove (fk : Db.on_delete) (handle : jsval) : M unit :=
  result ← Db.delete fk Companies "handle" [("handle", "handle")] handle;
  let company := head result in
  match company with
  | None => throw (NotFoundError ("No company: " +:+ to_string handle))
  | Some _ => mret tt
  end.

End Company.

(** ** models/job.js *)

Module Job.

Definition returning : list (string * string) :=
  [("id", "id"); ("title", "title"); ("salary", "salary"); ("equity", "equity");
   ("company_handle", "companyHandle")].

Definition create (data : gmap string jsval) : M (option row) :=
  let title := prop data "title" in
  let salary := prop data "salary" in
  let equity := prop data "equity" in
  let company_handle := prop data "company_handle" in
  duplicateCheck ← Db.select_eq Jobs [("title", "title")] "title" title;
  match head duplicateCheck with
  | Some _ => throw (BadRequestError ("Duplicate job: " +:+ to_string title))
  | None =>
      result ← Db.insert Jobs ["title"; "salary"; "equity"; "company_handle"]
                 returning [title; salary; equity; company_handle];
      let job := head result in
      mret job
  end.

(** The template literal [query] starts from. *)
Definition base_query : string :=
  nl +:+ "      SELECT id," +:+ nl
  +:+ "             title," +:+ nl
  +:+ "             salary," +:+ nl
  +:+ "             equity," +:+ nl
  +:+ "             company_handle AS " +:+ dq +:+ "companyHandle" +:+ dq +:+ nl
  +:+ "      FROM jobs" +:+ nl
  +:+ "    ".

(** The query text and parameter array [findAll] builds and hands to
    [db.query]; [arg] as for [Company.findAll_statement]. *)
Definition findAll_statement (arg : option (gmap string jsval)) : statement :=
  let filters := default ∅ arg in
  let title := prop filters "title" in
  let minSalary := prop filters "minSalary" in
  let hasEquity := prop filters "hasEquity" in
  let query := base_query in
  let values : list jsval := [] in
  let '(query, values) :=
    if truthy title
    then (query +:+ " WHERE title ILIKE $1",
          values ++ [JStr ("%" +:+ to_string title +:+ "%")])
    else (query, values) in
  let '(query, values) :=
    if truthy minSalary
    then (query +:+ (if negb (Nat.eqb (length values) 0)
                     then " AND salary >= $" +:+ pretty (length values + 1)
                     else " WHERE salary >= $1"),
          values ++ [minSalary])
    else (query, values) in
  let query :=
    if negb (bool_decide (hasEquity = JUndefined))
    then query +:+ (if negb (Nat.eqb (length values) 0)
                    then " AND equity > 0"
                    else " WHERE equity > 0")
    else query in
  {| query := query; params := values |}.

Definition jsToSql : gmap string string :=
  {[ "title" := "title"; "salary" := "salary"; "equity" := "equity";
     "companyHandle" := "company_handle" ]}.

(** The not-found branch builds its message from [handle], an identifier
    that is not declared in the method (the parameter is [id]):
    evaluating the template literal throws a ReferenceError before the
    NotFoundError is constructed.  The UPDATE goes to the database in
    parsed form, as in [Company.update], which is what its text denotes
    when the columns of the data are columns of the table. *)
Definition update (id : jsval) (data : obj) : M row :=
  match sqlForPartialUpdate data jsToSql with
  | Throws e => throw e
  | Returns r =>
      let idIdx := length (values r) + 1 in
      result ← Db.update Jobs (set_list data jsToSql) "id" idIdx
                 returning (values r ++ [id]);
      match head result with
      | None => throw (ReferenceError "handle is not defined")
      | Some job => mret job
      end
  end.

Definition get (id : jsval) : M row :=
  jobRes ← Db.select_eq Jobs returning "id" id;
  let job := head jobRes in
  match job with
  | None => throw (NotFoundError ("No job: " +:+ to_string id))
  | Some job => mret job
  end.

(** Nothing in the sources references a job row, so the DELETE of a job
    never meets a referencing row. *)
Definition remove (id : jsval) : M unit :=
  result ← Db.delete Db.Restrict Jobs "id" [("id", "id")] id;
  let deletedId := head result in
  match deletedId with
  | None => throw (NotFoundError ("No job: " +:+ to_string id))
  | Some _ => mret tt
  end.

End Job.

(** ** The filter builder as the spec describes it

    A list of the clauses that are present, each with its column, its
    comparison and (when it has one) its parameter; the first is attached
    with WHERE, every later one with AND, and a parameterised clause takes
    the next free position. *)

Inductive comparison :=
| ILike      (* case-insensitive pattern match *)
| AtLeast    (* >= *)
| AtMost     (* <= *)
| Positive.  (* > 0, no parameter *)

Record clause := { cl_column : string; cl_cmp : comparison; cl_param : option jsval }.

Definition render_clause (c : clause) (position : nat) : string :=
  match cl_cmp c with
  | ILike => cl_column c +:+ " ILIKE $" +:+ pretty position
  | AtLeast => cl_column c +:+ " >= $" +:+ pretty position
  | AtMost => cl_column c +:+ " <= $" +:+ pretty position
  | Positive => cl_column c +:+ " > 0"
  end.

Fixpoint attach (first : bool) (s : statement) (cs : list clause) : statement :=
  match cs with
  | [] => s
  | c :: rest =>
      let text := (if first then " WHERE " else " AND ")
                  +:+ render_clause c (length (params s) + 1) in
      attach false
        {| query := query s +:+ text;
           params := params s ++ option_list (cl_param c) |}
        rest
  end.

Definition build_filters (base : string) (cs : list clause) : statement :=
  attach true {| query := base; params := [] |} cs.

(** The clause a filter contributes when the code takes it as present. *)
Definition when (present : bool) (c : clause) : list clause :=
  if present then [c] else [].

Definition company_clauses (filters : gmap string jsval) : list clause :=
  let name := prop filters "name" in
  let minEmployees := prop filters "minEmployees" in
  let maxEmployees := prop filters "maxEmployees" in
  when (truthy name)
    {| cl_column := "name"; cl_cmp := ILike;
       cl_param := Some (JStr ("%" +:+ to_string name +:+ "%")) |}
  ++ when (truthy minEmployees)
    {| cl_column := "num_employees"; cl_cmp := AtLeast; cl_param := Some minEmployees |}
  ++ when (truthy maxEmployees)
    {| cl_column := "num_employees"; cl_cmp := AtMost; cl_param := Some maxEmployees |}.

Definition job_clauses (filters : gmap string jsval) : list clause :=
  let title := prop filters "title" in
  let minSalary := prop filters "minSalary" in
  let hasEquity := prop filters "hasEquity" in
  when (truthy title)
    {| cl_column := "title"; cl_cmp := ILike;
       cl_param := Some (JStr ("%" +:+ to_string title +:+ "%")) |}
  ++ when (truthy minSalary)
    {| cl_column := "salary"; cl_cmp := AtLeast; cl_param := Some minSalary |}
  ++ when (negb (bool_decide (hasEquity = JUndefined)))
    {| cl_column := "equity"; cl_cmp := Positive; cl_param := None |}.

(** Occurrences of [pat] in [s]. *)
Fixpoint occurrences (pat s : string) : nat :=
  match s with
  | EmptyString => 0
  | String _ rest => (if String.prefix pat s then 1 else 0) + occurrences pat rest
  end.

(** ** Sample data *)

(** Modelled from the spec: the table declarations are missing from the
    sources; section 3 gives handle, name, description, logoUrl, title and
    companyHandle as strings, equity as a decimal held as a string, and
    numEmployees, salary and the job id as integers.  A string column takes
    a value as its text; an integer column takes an integer. *)
Definition spec_column_input (t : table) (column : string) (v : jsval) : option jsval :=
  if bool_decide (column ∈ ["num_employees"; "salary"; "id"])
  then match v with JNum n => Some (JNum n) | _ => None end
  else Some (JStr (to_string v)).

Definition company_row (handle name description : string) (numEmployees : Z)
    (logoUrl : jsval) : row :=
  {[ "handle" := JStr handle; "name" := JStr name;
     "description" := JStr description; "num_employees" := JNum numEmployees;
     "logo_url" := logoUrl ]}.

Definition job_row (id : Z) (title : string) (salary : Z) (equity company_handle : string)
  : row :=
  {[ "id" := JNum id; "title" := JStr title; "salary" := JNum salary;
     "equity" := JStr equity; "company_handle" := JStr company_handle ]}.

(** Two companies, the first with two jobs, the second with none. *)
Definition sample_db : database :=
  {| column_input := spec_column_input;
     companies := [company_row "c1" "C1" "Desc1" 1 (JStr "http://c1.img");
                   company_row "c2" "C2" "Desc2" 2 JNull];
     jobs := [job_row 1 "Job1" 100 "0.1" "c1"; job_row 2 "Job2" 100 "0.1" "c1"];
     jobs_id_seq := 2 |}.

(** The fields of [data] name distinct columns of [t] through [jsToSql],
    each value is accepted by its column, and the key is accepted by the
    key column: the UPDATE built from [data] passes the database's
    check. *)
Definition update_admissible (db : database) (t : table)
    (jsToSql : gmap string string) (key_column : string) (key : jsval)
    (data : obj) : Prop :=
  NoDup (sql_column jsToSql <$> data.*1)
  ∧ Forall (λ kv, sql_column jsToSql kv.1 ∈ Db.columns t
                  ∧ is_Some (Db.bind db t (sql_column jsToSql kv.1) kv.2)) data
  ∧ is_Some (Db.bind db t key_column key).

(** The placeholder [Company.get] builds from a joined row that has no
    job: every property null. *)
Definition null_job : row :=
  {[ "id" := JNull; "title" := JNull; "salary" := JNull; "equity" := JNull ]}.

(** The job object [Company.get] builds from a stored job row. *)
Definition job_view (j : row) : row :=
  {[ "id" := prop j "id"; "title" := prop j "title";
     "salary" := prop j "salary"; "equity" := prop j "equity" ]}.

(** The mapping and the translation of the example in helpers/sql.js. *)
Definition aliya : obj := [("firstName", JStr "Aliya"); ("age", JNum 32)].
Definition aliya_columns : gmap string string := {[ "firstName" := "first_name" ]}.

(** Filters with a title and the equity flag. *)
Definition title_and_equity : gmap string jsval :=
  {[ "title" := JStr "a"; "hasEquity" := JBool true ]}.

(** The job rows that reference the company row [c]. *)
Definition associated_jobs (db : database) (c : row) : list row :=
  filter (λ j, Db.sql_eq (prop c "handle") (prop j "company_handle") = true) (jobs db).

(** An update of the company c1 of the sample data, and the company it
    returns. *)
Definition rename_c1 : obj := [("name", JStr "New"); ("numEmployees", JNum 7)].
Definition renamed_c1 : row :=
  {[ "handle" := JStr "c1"; "name" := JStr "New"; "description" := JStr "Desc1";
     "numEmployees" := JNum 7; "logoUrl" := JStr "http://c1.img" ]}.

(** An update of the job 2 of the sample data, and the job it returns. *)
Definition retitle_job2 : obj := [("title", JStr "New"); ("companyHandle", JStr "c2")].
Definition retitled_job2 : row :=
  {[ "id" := JNum 2; "title" := JStr "New"; "salary" := JNum 100;
     "equity" := JStr "0.1"; "companyHandle" := JStr "c2" ]}.

(** A company and a job that the sample data does not hold, and what
    creating them returns. *)
Definition new_company : gmap string jsval :=
  {[ "handle" := JStr "c3"; "name" := JStr "C3"; "description" := JStr "Desc3";
     "numEmployees" := JNum 3 ]}.
Definition created_company : row :=
  {[ "handle" := JStr "c3"; "name" := JStr "C3"; "description" := JStr "Desc3";
     "numEmployees" := JNum 3; "logoUrl" := JNull ]}.
Definition new_job : gmap string jsval :=
  {[ "title" := JStr "Job3"; "salary" := JNum 300; "equity" := JStr "0.3";
     "company_handle" := JStr "c2" ]}.
Definition created_job : row :=
  {[ "id" := JNum 3; "title" := JStr "Job3"; "salary" := JNum 300;
     "equity" := JStr "0.3"; "companyHandle" := JStr "c2" ]}.

(** Two sets of filters that differ in every value and agree on which
    filters are given. *)
Definition filters_net : gmap string jsval :=
  {[ "name" := JStr "net"; "minEmployees" := JNum 5;
     "title" := JStr "dev"; "hasEquity" := JBool true ]}.
Definition filters_quoted : gmap string jsval :=
  {[ "name" := JStr "x' OR 1=1 --"; "minEmployees" := JNum 900;
     "title" := JStr "%"; "hasEquity" := JBool false ]}.

(** The outcome is a thrown NotFoundError. *)
Definition not_found_thrown {A : Type} (o : outcome A) : bool :=
  match o with
  | Throws (NotFoundError _) => true
  | _ => false
  end.

(** Case analysis on the three tests a builder makes. *)
Ltac filter_cases :=
  repeat match goal with
         | |- context [truthy ?v] => destruct (truthy v)
         | |- context [bool_decide (?v = JUndefined)] =>
             destruct (bool_decide (v = JUndefined))
         end.

(** * Properties *)

(** ** The partial-update helper *)

Lemma imap_zip_seq {A B : Type} (g : A → nat → B) (l : list A) (s : nat) :
  imap (λ i a, g a (i + s)) l = zip_with g l (seq s (length l)).
Proof.
  revert s. induction l as [|a l IH]; intros s; [reflexivity|].
  cbn [imap zip_with seq length]. f_equal.
  rewrite <- IH. apply imap_ext. intros i x _. cbn. f_equal. lia.
Qed.

Lemma cols_zip (data : obj) (jsToSql : gmap string string) :
  cols data jsToSql
  = zip_with fragment (sql_column jsToSql <$> data.*1) (seq 1 (length data)).
Proof.
  unfold cols, Object_keys.
  rewrite (imap_zip_seq (λ k p, fragment (sql_column jsToSql k) p) _ 1).
  rewrite length_fmap, !zip_with_fmap_l. reflexivity.
Qed.

Lemma set_list_zip (data : obj) (jsToSql : gmap string string) :
  set_list data jsToSql
  = zip (sql_column jsToSql <$> data.*1) (seq 1 (length data)).
Proof.
  unfold set_list, Object_keys.
  rewrite (imap_zip_seq (λ k p, (sql_column jsToSql k, p)) _ 1).
  rewrite length_fmap, !zip_with_fmap_l. reflexivity.
Qed.

(** The text [setCols] is the rendering of the SET list the database is
    given. *)
Lemma cols_render_set_list (data : obj) (jsToSql : gmap string string) :
  cols data jsToSql = (λ cp, fragment cp.1 cp.2) <$> set_list data jsToSql.
Proof.
  unfold cols, set_list. rewrite fmap_imap. apply imap_ext. reflexivity.
Qed.

(** C5: for the empty field mapping, [sqlForPartialUpdate] throws
    BadRequestError (with message No data) and returns no result. *)
Theorem sqlForPartialUpdate_empty (jsToSql : gmap string string) :
  sqlForPartialUpdate [] jsToSql = Throws (BadRequestError "No data").
Proof. reflexivity. Qed.

(** C7: for the mapping {a: 1, b: 2} and the translation {b: bee}, the
    fragments are "a"=$1 and "bee"=$2 (the untranslated key a keeps its
    own name), returned joined by a comma and a space, and the values
    are [1, 2]. *)
Theorem sqlForPartialUpdate_example :
  cols [("a", JNum 1); ("b", JNum 2)] {[ "b" := "bee" ]}
  = [dq +:+ "a" +:+ dq +:+ "=$1"; dq +:+ "bee" +:+ dq +:+ "=$2"]
  ∧ sqlForPartialUpdate [("a", JNum 1); ("b", JNum 2)] {[ "b" := "bee" ]}
    = Returns {| setCols := dq +:+ "a" +:+ dq +:+ "=$1, " +:+ dq +:+ "bee" +:+ dq +:+ "=$2";
                 values := [JNum 1; JNum 2] |}.
Proof. split; vm_compute; reflexivity. Qed.

(** C1: for every non-empty field mapping, [sqlForPartialUpdate] returns;
    the values it returns are the values of the fields in enumeration
    order; there are as many fragments as returned values; the text it
    returns is the fragments separated by a comma and a space; the
    fragments are, in enumeration order of the fields, the texts
    "column"=$1, "column"=$2, ..., "column"=$n, so the positions are the
    contiguous sequence from 1 to n; and the i-th fragment (counting from
    0) carries the position i + 1 and stands next to the i-th returned
    value, the value of the i-th enumerated field. *)
Theorem sqlForPartialUpdate_positions (dataToUpdate : obj)
    (jsToSql : gmap string string) :
  dataToUpdate ≠ [] →
  ∃ r, sqlForPartialUpdate dataToUpdate jsToSql = Returns r
       ∧ values r = dataToUpdate.*2
       ∧ length (cols dataToUpdate jsToSql) = length (values r)
       ∧ setCols r = String.concat ", " (cols dataToUpdate jsToSql)
       ∧ cols dataToUpdate jsToSql
         = zip_with (λ (column : string) (position : nat),
                       String "034" (column
                         +:+ String "034" ("=$" +:+ pretty position)))
                    (sql_column jsToSql <$> dataToUpdate.*1)
                    (seq 1 (length dataToUpdate))
       ∧ ∀ i k v, dataToUpdate !! i = Some (k, v) →
           cols dataToUpdate jsToSql !! i
             = Some (String "034" (sql_column jsToSql k
                       +:+ String "034" ("=$" +:+ pretty (i + 1))))
           ∧ values r !! i = Some v.
Proof.
  intros Hne. unfold sqlForPartialUpdate, Object_keys, Object_values.
  destruct dataToUpdate as [|kv rest]; [done|].
  eexists. split; [reflexivity|]. cbn [setCols values].
  split; [reflexivity|]. split; [|split; [reflexivity|split]].
  - unfold cols, Object_keys. rewrite length_imap, !length_fmap. reflexivity.
  - rewrite cols_zip. reflexivity.
  - intros i k v Hi. split.
    + unfold cols, Object_keys. rewrite list_lookup_imap, list_lookup_fmap, Hi.
      reflexivity.
    + rewrite list_lookup_fmap, Hi. reflexivity.
Qed.

Lemma sqlForPartialUpdate_positions_witness :
  ∃ r, sqlForPartialUpdate aliya aliya_columns = Returns r
       ∧ values r = aliya.*2
       ∧ length (cols aliya aliya_columns) = length (values r)
       ∧ setCols r = String.concat ", " (cols aliya aliya_columns)
       ∧ cols aliya aliya_columns
         = zip_with (λ (column : string) (position : nat),
                       String "034" (column
                         +:+ String "034" ("=$" +:+ pretty position)))
                    (sql_column aliya_columns <$> aliya.*1)
                    (seq 1 (length aliya))
       ∧ ∀ i k v, aliya !! i = Some (k, v) →
           cols aliya aliya_columns !! i
             = Some (String "034" (sql_column aliya_columns k
                       +:+ String "034" ("=$" +:+ pretty (i + 1))))
           ∧ values r !! i = Some v.
Proof. apply (sqlForPartialUpdate_positions aliya aliya_columns). discriminate. Defined.

(** A key the mapping does not translate and that names a property
    every object inherits is not kept: the column is the text of the
    inherited property. *)
Example sqlForPartialUpdate_inherited :
  cols [("toString", JNum 1); ("age", JNum 2)] aliya_columns
  = [String "034" ("function toString() { [native code] }"
                   +:+ String "034" "=$1");
     String "034" ("age" +:+ String "034" "=$2")].
Proof. vm_compute. exact eq_refl. Qed.

(** The example in the helper's own comment. *)
Example sqlForPartialUpdate_aliya :
  cols aliya aliya_columns
  = [dq +:+ "first_name" +:+ dq +:+ "=$1"; dq +:+ "age" +:+ dq +:+ "=$2"].
Proof. vm_compute. reflexivity. Qed.

(** ** The filter builders *)

Lemma prop_insert (o : gmap string jsval) (k k' : string) (v : jsval) :
  prop (<[k := v]> o) k' = if decide (k = k') then v else prop o k'.
Proof.
  unfold prop. rewrite lookup_insert. destruct (decide (k = k')); reflexivity.
Qed.

Lemma prop_delete (o : gmap string jsval) (k k' : string) :
  prop (delete k o) k' = if decide (k = k') then JUndefined else prop o k'.
Proof.
  unfold prop. rewrite lookup_delete. destruct (decide (k = k')); reflexivity.
Qed.

(** C8: each builder produces exactly the statement the clause list of
    its present filters denotes, and in that list the comparison is fixed
    per field: name and title match the pattern %value% with ILIKE (a
    case-insensitive substring match), minEmployees and minSalary use >=,
    maxEmployees uses <=, and hasEquity is the parameterless check
    equity > 0. *)
Theorem findAll_operators (arg : option (gmap string jsval)) :
  Company.findAll_statement arg
  = build_filters Company.base_query (company_clauses (default ∅ arg))
  ∧ Job.findAll_statement arg
    = build_filters Job.base_query (job_clauses (default ∅ arg)).
Proof.
  split.
  - unfold Company.findAll_statement, company_clauses, build_filters, when.
    cbv zeta. filter_cases; vm_compute; reflexivity.
  - unfold Job.findAll_statement, job_clauses, build_filters, when.
    cbv zeta. filter_cases; vm_compute; reflexivity.
Qed.

(** C2, as stated, fails for [Job.findAll]: with the two filters title and
    hasEquity present the query has one WHERE and one AND, but the
    parameter list has length 1, since the equity clause has no
    parameter. *)
Lemma findAll_title_and_equity_one_parameter :
  size title_and_equity = 2
  ∧ length (job_clauses title_and_equity) = 2
  ∧ occurrences "WHERE" (query (Job.findAll_statement (Some title_and_equity))) = 1
  ∧ occurrences "AND" (query (Job.findAll_statement (Some title_and_equity))) = 1
  ∧ params (Job.findAll_statement (Some title_and_equity)) = [JStr "%a%"]
  ∧ length (params (Job.findAll_statement (Some title_and_equity))) = 1.
Proof. repeat split; vm_compute; reflexivity. Qed.

(** C2, amended: a filter counts as present when the builder takes it
    (a truthy name, title, minEmployees, maxEmployees or minSalary; a
    hasEquity that is not undefined).  With no filter present the query
    contains no WHERE.  With exactly two present it contains exactly one
    WHERE and one AND; the parameter list of [Company.findAll] then has
    length 2, and that of [Job.findAll] has length 2 when hasEquity is
    absent and length 1 when hasEquity is one of the two. *)
Theorem findAll_where_and_count (arg : option (gmap string jsval)) :
  (length (company_clauses (default ∅ arg)) = 0 →
     occurrences "WHERE" (query (Company.findAll_statement arg)) = 0)
  ∧ (length (company_clauses (default ∅ arg)) = 2 →
     occurrences "WHERE" (query (Company.findAll_statement arg)) = 1
     ∧ occurrences "AND" (query (Company.findAll_statement arg)) = 1
     ∧ length (params (Company.findAll_statement arg)) = 2)
  ∧ (length (job_clauses (default ∅ arg)) = 0 →
     occurrences "WHERE" (query (Job.findAll_statement arg)) = 0)
  ∧ (length (job_clauses (default ∅ arg)) = 2 →
     occurrences "WHERE" (query (Job.findAll_statement arg)) = 1
     ∧ occurrences "AND" (query (Job.findAll_statement arg)) = 1
     ∧ length (params (Job.findAll_statement arg))
       = if bool_decide (prop (default ∅ arg) "hasEquity" = JUndefined)
         then 2 else 1).
Proof.
  unfold Company.findAll_statement, company_clauses, Job.findAll_statement,
    job_clauses, when.
  cbv zeta.
  split; [|split; [|split]]; filter_cases; vm_compute; intros Hn;
    first [discriminate Hn | repeat split; reflexivity].
Qed.

Lemma findAll_where_and_count_witness :
  occurrences "WHERE" (query (Company.findAll_statement None)) = 0
  ∧ (occurrences "WHERE" (query (Company.findAll_statement
        (Some {[ "name" := JStr "net"; "maxEmployees" := JNum 5 ]}))) = 1
     ∧ occurrences "AND" (query (Company.findAll_statement
        (Some {[ "name" := JStr "net"; "maxEmployees" := JNum 5 ]}))) = 1
     ∧ length (params (Company.findAll_statement
        (Some {[ "name" := JStr "net"; "maxEmployees" := JNum 5 ]}))) = 2)
  ∧ occurrences "WHERE" (query (Job.findAll_statement None)) = 0
  ∧ (occurrences "WHERE" (query (Job.findAll_statement (Some title_and_equity))) = 1
     ∧ occurrences "AND" (query (Job.findAll_statement (Some title_and_equity))) = 1
     ∧ length (params (Job.findAll_statement (Some title_and_equity))) = 1).
Proof.
  split; [|split; [|split]].
  - refine (proj1 (findAll_where_and_count None) _). reflexivity.
  - refine (proj1 (proj2 (findAll_where_and_count
             (Some {[ "name" := JStr "net"; "maxEmployees" := JNum 5 ]}))) _).
    vm_compute. reflexivity.
  - refine (proj1 (proj2 (proj2 (findAll_where_and_count None))) _). reflexivity.
  - destruct (proj2 (proj2 (proj2 (findAll_where_and_count (Some title_and_equity)))))
      as (Hw & Ha & Hp); [vm_compute; reflexivity|].
    split; [exact Hw|]. split; [exact Ha|].
    etransitivity; [exact Hp|]. vm_compute. reflexivity.
Defined.

Lemma Company_findAll_falsy (filters : gmap string jsval) (k : string) (v : jsval) :
  truthy v = false →
  Company.findAll_statement (Some (<[k := v]> filters))
  = Company.findAll_statement (Some (delete k filters)).
Proof.
  intros Hv. unfold Company.findAll_statement. cbn [from_option id].
  rewrite !prop_insert, !prop_delete.
  repeat match goal with
         | |- context [decide (k = ?s)] => destruct (decide (k = s))
         end; rewrite ?Hv; reflexivity.
Qed.

Lemma Job_findAll_falsy (filters : gmap string jsval) (k : string) (v : jsval) :
  k ≠ "hasEquity" → truthy v = false →
  Job.findAll_statement (Some (<[k := v]> filters))
  = Job.findAll_statement (Some (delete k filters)).
Proof.
  intros Hk Hv. unfold Job.findAll_statement. cbn [from_option id].
  rewrite !prop_insert, !prop_delete.
  repeat match goal with
         | |- context [decide (k = ?s)] => destruct (decide (k = s))
         end; rewrite ?Hv; try reflexivity; done.
Qed.

(** C9: in [Company.findAll] and [Job.findAll] a filter given a falsy
    value (the empty string for name or title, 0 for minEmployees,
    maxEmployees or minSalary) yields the very statement, text and
    parameters, that the same filters without that filter yield. *)
Theorem falsy_filter_is_absent (filters : gmap string jsval) :
  Company.findAll_statement (Some (<["name" := JStr EmptyString]> filters))
  = Company.findAll_statement (Some (delete "name" filters))
  ∧ Company.findAll_statement (Some (<["minEmployees" := JNum 0]> filters))
    = Company.findAll_statement (Some (delete "minEmployees" filters))
  ∧ Company.findAll_statement (Some (<["maxEmployees" := JNum 0]> filters))
    = Company.findAll_statement (Some (delete "maxEmployees" filters))
  ∧ Job.findAll_statement (Some (<["title" := JStr EmptyString]> filters))
    = Job.findAll_statement (Some (delete "title" filters))
  ∧ Job.findAll_statement (Some (<["minSalary" := JNum 0]> filters))
    = Job.findAll_statement (Some (delete "minSalary" filters)).
Proof.
  repeat split;
    first [ apply Company_findAll_falsy; reflexivity
          | apply Job_findAll_falsy; [discriminate | reflexivity] ].
Qed.

(** C10: in [Job.findAll], for every value of hasEquity other than
    undefined (false included) the statement is the one built for
    hasEquity = true; its parameters are those of the statement built
    without hasEquity, and its text is that statement's text followed by
    the equity clause, attached with WHERE when there is no parameter and
    with AND otherwise. *)
Theorem Job_findAll_hasEquity_defined (filters : gmap string jsval) (v : jsval) :
  v ≠ JUndefined →
  Job.findAll_statement (Some (<["hasEquity" := v]> filters))
  = Job.findAll_statement (Some (<["hasEquity" := JBool true]> filters))
  ∧ params (Job.findAll_statement (Some (<["hasEquity" := v]> filters)))
    = params (Job.findAll_statement (Some (delete "hasEquity" filters)))
  ∧ query (Job.findAll_statement (Some (<["hasEquity" := v]> filters)))
    = query (Job.findAll_statement (Some (delete "hasEquity" filters)))
      +:+ (if params (Job.findAll_statement (Some (delete "hasEquity" filters)))
           is [] then " WHERE equity > 0" else " AND equity > 0").
Proof.
  intros Hv. unfold Job.findAll_statement. cbn [from_option id].
  rewrite !prop_insert, !prop_delete. cbn [decide].
  repeat match goal with
         | |- context [decide (?a = ?b)] => destruct (decide (a = b)); try done
         end.
  rewrite (bool_decide_eq_false_2 (v = JUndefined)) by done.
  rewrite (bool_decide_eq_false_2 (JBool true = JUndefined)) by done.
  rewrite (bool_decide_eq_true_2 (JUndefined = JUndefined)) by done.
  repeat split; filter_cases; vm_compute; reflexivity.
Qed.

Lemma Job_findAll_hasEquity_false :
  Job.findAll_statement (Some (<["hasEquity" := JBool false]> ∅))
  = Job.findAll_statement (Some (<["hasEquity" := JBool true]> ∅))
  ∧ params (Job.findAll_statement (Some (<["hasEquity" := JBool false]> ∅)))
    = params (Job.findAll_statement (Some (delete "hasEquity" ∅)))
  ∧ query (Job.findAll_statement (Some (<["hasEquity" := JBool false]> ∅)))
    = query (Job.findAll_statement (Some (delete "hasEquity" ∅)))
      +:+ (if params (Job.findAll_statement (Some (delete "hasEquity" ∅)))
           is [] then " WHERE equity > 0" else " AND equity > 0").
Proof. apply (Job_findAll_hasEquity_defined ∅ (JBool false)). discriminate. Defined.

(** ** The database *)

Lemma matching_elem (db : database) (t : table) (c : string) (k : jsval) (r : row) :
  r ∈ Db.matching db t c k ↔ r ∈ Db.rows db t ∧ Db.sql_eq (prop r c) k = true.
Proof. unfold Db.matching. rewrite list_elem_of_filter. tauto. Qed.

(** A key is held exactly when it binds and the rows matching it are not
    all of them missed. *)
Lemma holds_key_matching (db : database) (t : table) (c : string) (v k : jsval) :
  Db.bind db t c v = Some k →
  Db.holds_key db t c v ↔ Db.matching db t c k ≠ [].
Proof.
  intros Hb. split.
  - intros (k' & r & Hb' & Hr & He) Hnil.
    rewrite Hb in Hb'. injection Hb' as <-.
    assert (r ∈ Db.matching db t c k) as Hin by (apply matching_elem; done).
    rewrite Hnil in Hin. by apply not_elem_of_nil in Hin.
  - intros Hne. destruct (Db.matching db t c k) as [|r rs] eqn:Hm; [done|].
    assert (r ∈ Db.matching db t c k) as Hin by (rewrite Hm; left).
    apply matching_elem in Hin as [Hr He]. by exists k, r.
Qed.

(** Positional parameters: the SET list built over positions
    [length pre + 1, ...] reads, from the parameter array, the values in
    the order of the columns. *)
Lemma resolve_zip_seq (cs : list string) (vs pre post : list jsval) :
  length cs = length vs →
  Db.resolve (zip cs (seq (S (length pre)) (length cs))) (pre ++ vs ++ post)
  = Some (zip cs vs).
Proof.
  revert vs pre. induction cs as [|c cs IH]; intros [|v vs] pre Hlen;
    try discriminate; [reflexivity|].
  cbn [length seq zip_with Db.resolve app].
  specialize (IH vs (pre ++ [v])).
  rewrite length_app, Nat.add_1_r in IH. cbn [length] in IH.
  rewrite <- (assoc_L (++)) in IH. cbn [app] in IH.
  rewrite IH by (cbn in Hlen; lia).
  rewrite list_lookup_middle by reflexivity. reflexivity.
Qed.

Lemma resolve_set_list (data : obj) (jsToSql : gmap string string) (key : jsval) :
  Db.resolve (set_list data jsToSql) (Object_values data ++ [key])
  = Some (zip (sql_column jsToSql <$> data.*1) data.*2).
Proof.
  rewrite set_list_zip. unfold Object_values.
  pose proof (resolve_zip_seq (sql_column jsToSql <$> data.*1) data.*2 [] [key]) as H.
  rewrite !length_fmap in H. cbn [length app] in H. apply H. reflexivity.
Qed.

Lemma resolve_key (vals : list jsval) (c : string) (key : jsval) :
  Db.resolve [(c, length vals + 1)] (vals ++ [key]) = Some [(c, key)].
Proof.
  rewrite Nat.add_1_r. cbn [Db.resolve].
  rewrite list_lookup_middle by reflexivity. reflexivity.
Qed.

Lemma bind_all_is_Some (db : database) (t : table) (cvs : list (string * jsval)) :
  Forall (λ cv, cv.1 ∈ Db.columns t ∧ is_Some (Db.bind db t cv.1 cv.2)) cvs →
  is_Some (Db.bind_all db t cvs).
Proof.
  induction 1 as [|[c v] cvs [Hc [v' Hv]] _ [rest IH]]; [by eexists|].
  cbn [Db.bind_all]. cbn [fst snd] in Hc, Hv.
  rewrite bool_decide_eq_true_2, Hv, IH by done. by eexists.
Qed.

Lemma zip_columns_values (data : obj) (jsToSql : gmap string string) :
  zip (sql_column jsToSql <$> data.*1) data.*2
  = (λ kv, (sql_column jsToSql kv.1, kv.2)) <$> data.
Proof. induction data as [|[k v] data IH]; [reflexivity|]. cbn. by rewrite <- IH. Qed.

(** The check of the UPDATE built from [data], in terms of [data]. *)
Lemma check_update_built (db : database) (t : table) (data : obj)
    (jsToSql : gmap string string) (key_column : string) (key : jsval) :
  Db.check_update db t (set_list data jsToSql) key_column
    (length (Object_values data) + 1) (Object_values data ++ [key])
  = if negb (bool_decide (NoDup (sql_column jsToSql <$> data.*1))) then None
    else match Db.bind_all db t ((λ kv, (sql_column jsToSql kv.1, kv.2)) <$> data),
               Db.bind db t key_column key with
         | Some cvs, Some k => Some (cvs, k)
         | _, _ => None
         end.
Proof.
  unfold Db.check_update.
  rewrite resolve_set_list, resolve_key, zip_columns_values.
  rewrite <- !list_fmap_compose. reflexivity.
Qed.

Lemma check_update_admissible (db : database) (t : table) (data : obj)
    (jsToSql : gmap string string) (key_column : string) (key : jsval) :
  update_admissible db t jsToSql key_column key data →
  ∃ cvs k, Db.bind db t key_column key = Some k
           ∧ Db.check_update db t (set_list data jsToSql) key_column
               (length (Object_values data) + 1) (Object_values data ++ [key])
             = Some (cvs, k).
Proof.
  intros (Hnd & Hall & [k Hk]). rewrite check_update_built.
  rewrite bool_decide_eq_true_2 by done. cbn [negb].
  destruct (bind_all_is_Some db t ((λ kv, (sql_column jsToSql kv.1, kv.2)) <$> data))
    as [cvs Hcvs].
  { apply Forall_fmap. eapply Forall_impl; [exact Hall|]. by intros [c v]. }
  exists cvs, k. by rewrite Hcvs, Hk.
Qed.

(** An UPDATE built from [data] for a key no row holds: the store is
    unchanged, and the statement returns no row when it passes the check
    and is rejected otherwise. *)
Lemma update_key_not_held (db : database) (t : table) (data : obj)
    (jsToSql : gmap string string) (key_column : string) (key : jsval)
    (ret : list (string * string)) :
  ¬ Db.holds_key db t key_column key →
  Db.update t (set_list data jsToSql) key_column (length (Object_values data) + 1)
    ret (Object_values data ++ [key]) db
  = (match Db.check_update db t (set_list data jsToSql) key_column
             (length (Object_values data) + 1) (Object_values data ++ [key]) with
     | Some _ => Returns []
     | None => Throws DatabaseError
     end, db).
Proof.
  intros Hno. unfold Db.update.
  destruct (Db.check_update _ _ _ _ _ _) as [[cvs k]|] eqn:Hc; [|reflexivity].
  rewrite check_update_built in Hc.
  destruct (negb _); [discriminate|].
  destruct (Db.bind_all _ _ _); [|discriminate].
  destruct (Db.bind db t key_column key) as [k'|] eqn:Hk; [|discriminate].
  injection Hc as _ <-.
  destruct (Db.matching db t key_column k') as [|r rs] eqn:Hm; [reflexivity|].
  exfalso. apply Hno. apply (holds_key_matching _ _ _ _ _ Hk). by rewrite Hm.
Qed.

(** ** The models: update *)

Lemma sqlForPartialUpdate_cons (kv : string * jsval) (data : obj)
    (jsToSql : gmap string string) :
  sqlForPartialUpdate (kv :: data) jsToSql
  = Returns {| setCols := join ", " (cols (kv :: data) jsToSql);
               values := Object_values (kv :: data) |}.
Proof. reflexivity. Qed.

(** [Company.update] for a handle no company holds, case by case. *)
Lemma Company_update_key_not_held (db : database) (key : jsval) (data : obj) :
  ¬ Db.holds_key db Companies "handle" key →
  Company.update key data db
  = (match data with
     | [] => Throws (BadRequestError "No data")
     | _ :: _ =>
         match Db.check_update db Companies (set_list data Company.jsToSql) "handle"
                 (length (Object_values data) + 1) (Object_values data ++ [key]) with
         | Some _ => Throws (NotFoundError ("No company: " +:+ to_string key))
         | None => Throws DatabaseError
         end
     end, db).
Proof.
  intros Hno. unfold Company.update.
  destruct data as [|kv data]; [reflexivity|].
  rewrite sqlForPartialUpdate_cons. cbn [values].
  unfold mbind, M_bind. rewrite update_key_not_held by done.
  by destruct (Db.check_update _ _ _ _ _ _).
Qed.

(** [Job.update] for an id no job holds, case by case. *)
Lemma Job_update_key_not_held (db : database) (key : jsval) (data : obj) :
  ¬ Db.holds_key db Jobs "id" key →
  Job.update key data db
  = (match data with
     | [] => Throws (BadRequestError "No data")
     | _ :: _ =>
         match Db.check_update db Jobs (set_list data Job.jsToSql) "id"
                 (length (Object_values data) + 1) (Object_values data ++ [key]) with
         | Some _ => Throws (ReferenceError "handle is not defined")
         | None => Throws DatabaseError
         end
     end, db).
Proof.
  intros Hno. unfold Job.update.
  destruct data as [|kv data]; [reflexivity|].
  rewrite sqlForPartialUpdate_cons. cbn [values].
  unfold mbind, M_bind. rewrite update_key_not_held by done.
  by destruct (Db.check_update _ _ _ _ _ _).
Qed.

(** C4, as stated, fails: for a handle no company holds and an empty
    partialData, [Company.update] throws BadRequestError, not
    NotFoundError ([sqlForPartialUpdate] refuses the empty mapping before
    any query is issued). *)
Lemma Company_update_missing_key_no_data :
  Db.bind sample_db Companies "handle" (JStr "nope") = Some (JStr "nope")
  ∧ Db.matching sample_db Companies "handle" (JStr "nope") = []
  ∧ Company.update (JStr "nope") [] sample_db
    = (Throws (BadRequestError "No data"), sample_db).
Proof. repeat split; vm_compute; reflexivity. Qed.

(** C4, amended: for every key that no row of the table holds,
    [Company.update] and [Job.update] leave the store unchanged, and both
    throw BadRequestError when partialData is empty; [Company.update]
    throws NotFoundError when partialData is non-empty and the UPDATE
    passes the database's check (distinct known columns, accepted
    values). *)
Theorem update_missing_key (db : database) (key : jsval) (data : obj) :
  (¬ Db.holds_key db Companies "handle" key →
     (Company.update key data db).2 = db
     ∧ (data = [] →
          (Company.update key data db).1 = Throws (BadRequestError "No data"))
     ∧ (data ≠ [] →
        update_admissible db Companies Company.jsToSql "handle" key data →
          (Company.update key data db).1
          = Throws (NotFoundError ("No company: " +:+ to_string key))))
  ∧ (¬ Db.holds_key db Jobs "id" key →
     (Job.update key data db).2 = db
     ∧ (data = [] →
          (Job.update key data db).1 = Throws (BadRequestError "No data"))).
Proof.
  split; intros Hno.
  - rewrite Company_update_key_not_held by done. cbn [fst snd].
    split; [reflexivity|]. split.
    + by intros ->.
    + intros Hne Hadm. destruct data as [|kv data]; [done|].
      destruct (check_update_admissible _ _ _ _ _ _ Hadm) as (cvs & k & _ & ->).
      reflexivity.
  - rewrite Job_update_key_not_held by done. cbn [fst snd].
    split; [reflexivity|]. by intros ->.
Qed.

Lemma not_holds_key_no_match (db : database) (t : table) (c : string) (v k : jsval) :
  Db.bind db t c v = Some k → Db.matching db t c k = [] → ¬ Db.holds_key db t c v.
Proof. intros Hb Hm Hh. by apply (holds_key_matching _ _ _ _ _ Hb) in Hh. Qed.

Lemma update_admissible_checked (db : database) (t : table)
    (jsToSql : gmap string string) (key_column : string) (key : jsval) (data : obj) :
  bool_decide (NoDup (sql_column jsToSql <$> data.*1)) = true →
  forallb (λ kv, bool_decide (sql_column jsToSql kv.1 ∈ Db.columns t)
                 && bool_decide (is_Some (Db.bind db t (sql_column jsToSql kv.1) kv.2)))
          data = true →
  bool_decide (is_Some (Db.bind db t key_column key)) = true →
  update_admissible db t jsToSql key_column key data.
Proof.
  intros Hnd Hall Hk. split; [|split].
  - by apply bool_decide_eq_true in Hnd.
  - apply Forall_forall. intros kv Hin.
    rewrite forallb_forall in Hall. apply list_elem_of_In in Hin.
    specialize (Hall kv Hin). apply andb_true_iff in Hall as [H1 H2].
    split; by eapply bool_decide_eq_true.
  - by apply bool_decide_eq_true in Hk.
Qed.

Lemma update_missing_key_witness :
  ((Company.update (JStr "nope") [("name", JStr "New"); ("numEmployees", JNum 10)]
      sample_db).2 = sample_db
   ∧ (Company.update (JStr "nope") [("name", JStr "New"); ("numEmployees", JNum 10)]
        sample_db).1
     = Throws (NotFoundError ("No company: " +:+ to_string (JStr "nope"))))
  ∧ (Job.update (JNum 0) [("title", JStr "New")] sample_db).2 = sample_db.
Proof.
  split.
  - destruct (update_missing_key sample_db (JStr "nope")
                [("name", JStr "New"); ("numEmployees", JNum 10)]) as [HC _].
    destruct HC as (Hdb & _ & Hnf).
    + apply (not_holds_key_no_match _ _ _ _ (JStr "nope")); reflexivity.
    + split; [exact Hdb|]. apply Hnf; [discriminate|].
      apply update_admissible_checked; reflexivity.
  - destruct (update_missing_key sample_db (JNum 0) [("title", JStr "New")])
      as [_ HJ].
    destruct HJ as (Hdb & _).
    + apply (not_holds_key_no_match _ _ _ _ (JNum 0)); reflexivity.
    + exact Hdb.
Defined.

(** X7: the not-found branch of [Job.update]: for an id no job holds, a
    non-empty partialData and an UPDATE that passes the database's check,
    the method throws the runtime's ReferenceError (the message names an
    identifier that does not exist), not NotFoundError, and the store is
    unchanged. *)
Lemma Job_update_missing_key_reference_error (db : database) (key : jsval)
    (data : obj) :
  ¬ Db.holds_key db Jobs "id" key → data ≠ [] →
  update_admissible db Jobs Job.jsToSql "id" key data →
  Job.update key data db = (Throws (ReferenceError "handle is not defined"), db).
Proof.
  intros Hno Hne Hadm. rewrite Job_update_key_not_held by done.
  destruct data as [|kv data]; [done|].
  destruct (check_update_admissible _ _ _ _ _ _ Hadm) as (cvs & k & _ & ->).
  reflexivity.
Qed.

Example Job_update_missing_key_sample :
  Job.update (JNum 0) [("title", JStr "New")] sample_db
  = (Throws (ReferenceError "handle is not defined"), sample_db).
Proof. vm_compute. reflexivity. Qed.

(** ** The models: create *)

Lemma select_eq_held (db : database) (t : table) (sel : list (string * string))
    (c : string) (v : jsval) :
  Db.holds_key db t c v →
  ∃ r rs, Db.select_eq t sel c v db = (Returns (r :: rs), db).
Proof.
  intros Hh. destruct Hh as (k & r & Hb & Hr & He).
  assert (Db.matching db t c k ≠ []) as Hne.
  { apply (holds_key_matching _ _ _ _ _ Hb). by exists k, r. }
  unfold Db.select_eq. rewrite Hb.
  destruct (Db.matching db t c k) as [|r' rs]; [done|].
  by eexists _, _.
Qed.

(** C6: when a company row already holds the handle of [data],
    [Company.create] throws BadRequestError (Duplicate company) with the
    store unchanged; when a job row already holds the title of [data],
    [Job.create] throws BadRequestError (Duplicate job) with the store
    unchanged.  In both cases no INSERT is issued. *)
Theorem create_duplicate_rejected (db : database) (data : gmap string jsval) :
  (Db.holds_key db Companies "handle" (prop data "handle") →
     Company.create data db
     = (Throws (BadRequestError
                  ("Duplicate company: " +:+ to_string (prop data "handle"))), db))
  ∧ (Db.holds_key db Jobs "title" (prop data "title") →
     Job.create data db
     = (Throws (BadRequestError
                  ("Duplicate job: " +:+ to_string (prop data "title"))), db)).
Proof.
  split; intros Hh.
  - destruct (select_eq_held db Companies [("handle", "handle")] _ _ Hh)
      as (r & rs & Hsel).
    unfold Company.create, mbind, M_bind. rewrite Hsel. reflexivity.
  - destruct (select_eq_held db Jobs [("title", "title")] _ _ Hh)
      as (r & rs & Hsel).
    unfold Job.create, mbind, M_bind. rewrite Hsel. reflexivity.
Qed.

Lemma holds_key_first (db : database) (t : table) (c : string) (v k : jsval)
    (r : row) (rs : list row) :
  Db.bind db t c v = Some k → Db.matching db t c k = r :: rs →
  Db.holds_key db t c v.
Proof. intros Hb Hm. apply (holds_key_matching _ _ _ _ _ Hb). by rewrite Hm. Qed.

Lemma create_duplicate_rejected_witness :
  Company.create {[ "handle" := JStr "c1"; "name" := JStr "Again" ]} sample_db
  = (Throws (BadRequestError "Duplicate company: c1"), sample_db)
  ∧ Job.create {[ "title" := JStr "Job1"; "company_handle" := JStr "c2" ]} sample_db
    = (Throws (BadRequestError "Duplicate job: Job1"), sample_db).
Proof.
  split.
  - change "Duplicate company: c1"
      with ("Duplicate company: "
            +:+ to_string (prop {[ "handle" := JStr "c1"; "name" := JStr "Again" ]}
                             "handle")).
    apply (proj1 (create_duplicate_rejected sample_db
                    {[ "handle" := JStr "c1"; "name" := JStr "Again" ]})).
    eapply (holds_key_first _ _ _ _ (JStr "c1")); reflexivity.
  - change "Duplicate job: Job1"
      with ("Duplicate job: "
            +:+ to_string (prop {[ "title" := JStr "Job1";
                                   "company_handle" := JStr "c2" ]} "title")).
    apply (proj2 (create_duplicate_rejected sample_db
                    {[ "title" := JStr "Job1"; "company_handle" := JStr "c2" ]})).
    eapply (holds_key_first _ _ _ _ (JStr "Job1")); reflexivity.
Defined.

(** ** The models: get *)


Lemma filter_join_block (db : database) (k : jsval) (c : row) :
  filter (λ cj, Db.sql_eq (prop cj.1 "handle") k = true)
         (Db.join_block db Jobs "handle" "company_handle" c)
  = if Db.sql_eq (prop c "handle") k
    then Db.join_block db Jobs "handle" "company_handle" c else [].
Proof.
  assert (∀ l : list (row * option row), Forall (λ cj, cj.1 = c) l →
            filter (λ cj, Db.sql_eq (prop cj.1 "handle") k = true) l
            = if Db.sql_eq (prop c "handle") k then l else []) as Hconst.
  { induction 1 as [|[c' oj] l Hc _ IH]; [by destruct (Db.sql_eq _ _)|].
    cbn [fst] in Hc. subst c'. rewrite filter_cons, IH. cbn [fst].
    destruct (Db.sql_eq (prop c "handle") k); by case_decide. }
  apply Hconst. unfold Db.join_block.
  destruct (filter _ _) as [|j js]; [by repeat constructor|].
  apply Forall_fmap, Forall_forall. by intros.
Qed.

(** The WHERE clause of the join keeps the blocks of the companies that
    hold the key. *)
Lemma filter_left_join (db : database) (k : jsval) :
  filter (λ cj, Db.sql_eq (prop cj.1 "handle") k = true)
         (Db.left_join db Companies Jobs "handle" "company_handle")
  = Db.matching db Companies "handle" k
    ≫= Db.join_block db Jobs "handle" "company_handle".
Proof.
  unfold Db.left_join, Db.matching. cbn [Db.rows].
  induction (companies db) as [|c cs IH]; [reflexivity|].
  rewrite filter_cons, !bind_cons, filter_app, filter_join_block, IH.
  destruct (Db.sql_eq (prop c "handle") k); by case_decide.
Qed.

Lemma joined_row_company (h n d e l a b s q : jsval) :
  delete "job_equity" (delete "job_salary" (delete "job_title" (delete "job_id"
    ((list_to_map [("handle", h); ("name", n); ("description", d);
                   ("numEmployees", e); ("logoUrl", l)] : row)
     ∪ list_to_map [("job_id", a); ("job_title", b); ("job_salary", s);
                    ("job_equity", q)]))))
  = list_to_map [("handle", h); ("name", n); ("description", d);
                 ("numEmployees", e); ("logoUrl", l)].
Proof. vm_compute. reflexivity. Qed.

Lemma joined_row_job (h n d e l a b s q : jsval) :
  Company.job_object
    ((list_to_map [("handle", h); ("name", n); ("description", d);
                   ("numEmployees", e); ("logoUrl", l)] : row)
     ∪ list_to_map [("job_id", a); ("job_title", b); ("job_salary", s);
                    ("job_equity", q)])
  = {[ "id" := a; "title" := b; "salary" := s; "equity" := q ]}.
Proof. vm_compute. reflexivity. Qed.

Lemma company_of_joined (c : row) (x : row) :
  x = Db.null_row Company.job_columns ∨ (∃ j, x = Db.project Company.job_columns j) →
  delete "job_equity" (delete "job_salary" (delete "job_title" (delete "job_id"
    (Db.project Company.returning c ∪ x))))
  = Db.project Company.returning c.
Proof. intros [->|[j ->]]; apply joined_row_company. Qed.

Lemma job_of_joined (c j : row) :
  Company.job_object (Db.project Company.returning c
                      ∪ Db.project Company.job_columns j) = job_view j.
Proof. apply joined_row_job. Qed.

Lemma job_of_unjoined (c : row) :
  Company.job_object (Db.project Company.returning c
                      ∪ Db.null_row Company.job_columns) = null_job.
Proof. apply joined_row_job. Qed.

(** [Company.get] for a handle exactly one company row holds: the
    company's columns, and one job object per job row that references the
    company, in table order; when no job row references it, the single
    all-null object the LEFT JOIN row gives. *)
Lemma Company_get_unique (db : database) (handle k : jsval) (c : row) :
  Db.bind db Companies "handle" handle = Some k →
  Db.matching db Companies "handle" k = [c] →
  Company.get handle db
  = (Returns {| company_fields := Db.project Company.returning c;
                company_jobs := match associated_jobs db c with
                                | [] => [null_job]
                                | js => job_view <$> js
                                end |}, db).
Proof.
  intros Hb Hm. unfold Company.get, mbind at 1, M_bind, Db.select_left_join.
  rewrite Hb, filter_left_join, Hm. cbn [mbind list_bind]. rewrite app_nil_r.
  unfold Db.join_block. cbn [Db.rows]. fold (associated_jobs db c).
  destruct (associated_jobs db c) as [|j js].
  - cbn [fmap list_fmap head fst snd from_option].
    rewrite company_of_joined by (by left). rewrite job_of_unjoined.
    reflexivity.
  - rewrite <- !list_fmap_compose.
    cbn [fmap list_fmap head compose fst snd from_option].
    rewrite company_of_joined by (right; by eexists). rewrite job_of_joined.
    unfold mret, M_ret. do 3 f_equal;
      try (apply list_fmap_ext; intros ? j' _; apply job_of_joined).
Qed.

(** C3 fails on the code: for the company c2 of the sample data, which
    exists and has no job, [Company.get] returns a jobs list holding one
    object whose id, title, salary and equity are all null, where the
    claim has the empty list. *)
Theorem Company_get_without_jobs_placeholder :
  associated_jobs sample_db (company_row "c2" "C2" "Desc2" 2 JNull) = []
  ∧ Company.get (JStr "c2") sample_db
    = (Returns {| company_fields :=
                    {[ "handle" := JStr "c2"; "name" := JStr "C2";
                       "description" := JStr "Desc2"; "numEmployees" := JNum 2;
                       "logoUrl" := JNull ]};
                  company_jobs :=
                    [{[ "id" := JNull; "title" := JNull; "salary" := JNull;
                        "equity" := JNull ]}] |},
       sample_db).
Proof. split; vm_compute; reflexivity. Qed.

(** The other half of C3 on the sample data: the company c1 has two jobs,
    and [Company.get] lists both. *)
Example Company_get_with_jobs :
  Company.get (JStr "c1") sample_db
  = (Returns {| company_fields :=
                  {[ "handle" := JStr "c1"; "name" := JStr "C1";
                     "description" := JStr "Desc1"; "numEmployees" := JNum 1;
                     "logoUrl" := JStr "http://c1.img" ]};
                company_jobs :=
                  [{[ "id" := JNum 1; "title" := JStr "Job1"; "salary" := JNum 100;
                      "equity" := JStr "0.1" ]};
                   {[ "id" := JNum 2; "title" := JStr "Job2"; "salary" := JNum 100;
                      "equity" := JStr "0.1" ]}] |},
     sample_db).
Proof. vm_compute. reflexivity. Qed.

(** * Further properties of the models *)

(** ** Reading and deleting *)

Lemma filter_none {A : Type} (P : A → Prop) `{∀ x, Decision (P x)} (l : list A) :
  (∀ y, y ∈ l → ¬ P y) → filter P l = [].
Proof.
  intros Hno. destruct (filter P l) as [|x xs] eqn:Hf; [reflexivity|].
  assert (x ∈ filter P l) as Hin by (rewrite Hf; left).
  apply list_elem_of_filter in Hin as [HP Hin]. by destruct (Hno x Hin).
Qed.

Lemma filter_all {A : Type} (P : A → Prop) `{∀ x, Decision (P x)} (l : list A) :
  (∀ y, y ∈ l → P y) → filter P l = l.
Proof.
  induction l as [|x l IH]; intros Hall; [reflexivity|].
  rewrite filter_cons_True by (apply Hall; left).
  f_equal. apply IH. intros y Hy. apply Hall. by right.
Qed.

Lemma set_rows_same (db : database) (t : table) :
  Db.set_rows db t (Db.rows db t) = db.
Proof. by destruct db, t. Qed.

Lemma sql_eq_true (a b : jsval) : Db.sql_eq a b = true → a = b.
Proof.
  destruct a, b; cbn; try discriminate; intros H; by apply bool_decide_eq_true in H.
Qed.

(** In a table where [column] is a key, the rows matching a value held
    by [r] are [r] alone. *)
Lemma matching_unique (db : database) (t : table) (column : string) (k : jsval)
    (r : row) :
  NoDup ((λ r, prop r column) <$> Db.rows db t) →
  r ∈ Db.rows db t → Db.sql_eq (prop r column) k = true →
  Db.matching db t column k = [r].
Proof.
  unfold Db.matching. induction (Db.rows db t) as [|x l IH]; intros Hnd Hin Hr.
  - by apply not_elem_of_nil in Hin.
  - rewrite fmap_cons in Hnd. apply NoDup_cons in Hnd as [Hx Hl].
    assert (∀ y, y ∈ l → prop y column ∈ (λ r, prop r column) <$> l) as Hmem.
    { intros y Hy. apply list_elem_of_fmap. by exists y. }
    rewrite filter_cons. case_decide as Hxk.
    + assert (filter (λ r, Db.sql_eq (prop r column) k = true) l = []) as ->.
      { apply filter_none. intros y Hy Hyk.
        apply Hx. apply sql_eq_true in Hxk, Hyk. rewrite Hxk, <- Hyk. by apply Hmem. }
      apply elem_of_cons in Hin as [->|Hin]; [reflexivity|].
      exfalso. apply Hx. apply sql_eq_true in Hxk, Hr. rewrite Hxk, <- Hr.
      by apply Hmem.
    + apply elem_of_cons in Hin as [->|Hin]; [done|]. by apply IH.
Qed.

Lemma select_eq_bound (db : database) (t : table) (sel : list (string * string))
    (c : string) (v k : jsval) :
  Db.bind db t c v = Some k →
  Db.select_eq t sel c v db = (Returns (Db.project sel <$> Db.matching db t c k), db).
Proof. intros Hb. unfold Db.select_eq. by rewrite Hb. Qed.

Lemma no_match (db : database) (t : table) (c : string) (v k : jsval) :
  ¬ Db.holds_key db t c v → Db.bind db t c v = Some k → Db.matching db t c k = [].
Proof.
  intros Hno Hb. destruct (Db.matching db t c k) as [|r rs] eqn:Hm; [reflexivity|].
  exfalso. apply Hno. by eapply holds_key_first.
Qed.

Lemma left_join_bound (db : database) (handle k : jsval) :
  Db.bind db Companies "handle" handle = Some k →
  Db.select_left_join Companies Jobs "handle" "company_handle" Company.returning
    Company.job_columns "handle" handle db
  = (Returns ((λ cj, Db.project Company.returning cj.1
                     ∪ from_option (Db.project Company.job_columns)
                         (Db.null_row Company.job_columns) cj.2)
              <$> (Db.matching db Companies "handle" k
                   ≫= Db.join_block db Jobs "handle" "company_handle")), db).
Proof. intros Hb. unfold Db.select_left_join. by rewrite Hb, filter_left_join. Qed.

(** A DELETE whose key no row holds returns no row and changes
    nothing. *)
Lemma delete_no_match (db : database) (fk : Db.on_delete) (t : table) (c : string)
    (ret : list (string * string)) (v k : jsval) :
  Db.bind db t c v = Some k → Db.matching db t c k = [] →
  Db.delete fk t c ret v db = (Returns [], db).
Proof.
  intros Hb Hm. unfold Db.delete. rewrite Hb, Hm.
  assert (filter (λ r, Db.sql_eq (prop r c) k = false) (Db.rows db t) = Db.rows db t)
    as ->.
  { apply filter_all. intros y Hy.
    destruct (Db.sql_eq (prop y c) k) eqn:He; [|reflexivity].
    assert (y ∈ Db.matching db t c k) as Hin by (by apply matching_elem).
    rewrite Hm in Hin. by apply not_elem_of_nil in Hin. }
  destruct t, fk; cbn [fmap list_fmap existsb Db.references];
    rewrite ?set_rows_same; try reflexivity.
  - assert (existsb (Db.references []) (jobs db) = false) as ->; [|reflexivity].
    by induction (jobs db).
  - rewrite (filter_all _ (jobs db)) by done.
    change (jobs db) with (Db.rows db Jobs). by rewrite set_rows_same.
Qed.

(** X1: for a key that binds and that no row holds, [Company.get],
    [Company.remove], [Job.get] and [Job.remove] throw NotFoundError with
    the message naming the key (No company: key, No job: key) and leave
    the store unchanged. *)
Theorem get_remove_missing_key (db : database) (fk : Db.on_delete) (key : jsval) :
  (¬ Db.holds_key db Companies "handle" key →
   is_Some (Db.bind db Companies "handle" key) →
     Company.get key db
     = (Throws (NotFoundError ("No company: " +:+ to_string key)), db)
     ∧ Company.remove fk key db
       = (Throws (NotFoundError ("No company: " +:+ to_string key)), db))
  ∧ (¬ Db.holds_key db Jobs "id" key →
     is_Some (Db.bind db Jobs "id" key) →
       Job.get key db = (Throws (NotFoundError ("No job: " +:+ to_string key)), db)
       ∧ Job.remove key db
         = (Throws (NotFoundError ("No job: " +:+ to_string key)), db)).
Proof.
  split; intros Hno [k Hb]; pose proof (no_match _ _ _ _ _ Hno Hb) as Hm; split.
  - unfold Company.get, mbind, M_bind.
    rewrite (left_join_bound _ _ _ Hb), Hm. reflexivity.
  - unfold Company.remove, mbind, M_bind.
    rewrite (delete_no_match _ _ _ _ _ _ _ Hb Hm). reflexivity.
  - unfold Job.get, mbind, M_bind.
    rewrite (select_eq_bound _ _ _ _ _ _ Hb), Hm. reflexivity.
  - unfold Job.remove, mbind, M_bind.
    rewrite (delete_no_match _ _ _ _ _ _ _ Hb Hm). reflexivity.
Qed.

Lemma get_remove_missing_key_witness :
  (Company.get (JStr "nope") sample_db
   = (Throws (NotFoundError "No company: nope"), sample_db)
   ∧ Company.remove Db.Cascade (JStr "nope") sample_db
     = (Throws (NotFoundError "No company: nope"), sample_db))
  ∧ (Job.get (JNum 0) sample_db = (Throws (NotFoundError "No job: 0"), sample_db)
     ∧ Job.remove (JNum 0) sample_db
       = (Throws (NotFoundError "No job: 0"), sample_db)).
Proof.
  split.
  - refine (proj1 (get_remove_missing_key sample_db Db.Cascade (JStr "nope")) _ _).
    + apply (not_holds_key_no_match _ _ _ _ (JStr "nope")); reflexivity.
    + by eexists.
  - refine (proj2 (get_remove_missing_key sample_db Db.Cascade (JNum 0)) _ _).
    + apply (not_holds_key_no_match _ _ _ _ (JNum 0)); reflexivity.
    + by eexists.
Defined.

Lemma bind_set_rows (db : database) (t t' : table) (rs : list row) (c : string)
    (v : jsval) :
  Db.bind (Db.set_rows db t' rs) t c v = Db.bind db t c v.
Proof. by destruct t', v. Qed.

Lemma rows_set_rows (db : database) (t : table) (rs : list row) :
  Db.rows (Db.set_rows db t rs) t = rs.
Proof. by destruct t. Qed.

(** After the rows holding [k] are filtered out, no row holds [k]. *)
Lemma matching_after_delete (db : database) (t : table) (c : string) (k : jsval) :
  Db.matching
    (Db.set_rows db t (filter (λ r, Db.sql_eq (prop r c) k = false) (Db.rows db t)))
    t c k = [].
Proof.
  unfold Db.matching. rewrite rows_set_rows. apply filter_none.
  intros y Hy He. apply list_elem_of_filter in Hy as [Hf _]. congruence.
Qed.

Lemma project_job_returning (j : row) :
  Db.project Job.returning j
  = {[ "id" := prop j "id"; "title" := prop j "title"; "salary" := prop j "salary";
       "equity" := prop j "equity"; "companyHandle" := prop j "company_handle" ]}.
Proof. reflexivity. Qed.

Lemma project_company_returning (c : row) :
  Db.project Company.returning c
  = {[ "handle" := prop c "handle"; "name" := prop c "name";
       "description" := prop c "description";
       "numEmployees" := prop c "num_employees"; "logoUrl" := prop c "logo_url" ]}.
Proof. reflexivity. Qed.

(** X2: when the job ids are distinct and the job row [j] holds the id,
    [Job.get] returns the columns of [j], company_handle under the name
    companyHandle, and leaves the store unchanged. *)
Theorem Job_get_held (db : database) (id k : jsval) (j : row) :
  Db.bind db Jobs "id" id = Some k →
  j ∈ jobs db → Db.sql_eq (prop j "id") k = true →
  NoDup ((λ r, prop r "id") <$> jobs db) →
  Job.get id db
  = (Returns {[ "id" := prop j "id"; "title" := prop j "title";
                "salary" := prop j "salary"; "equity" := prop j "equity";
                "companyHandle" := prop j "company_handle" ]}, db).
Proof.
  intros Hb Hj He Hnd. unfold Job.get, mbind, M_bind.
  rewrite (select_eq_bound _ _ _ _ _ _ Hb).
  rewrite (matching_unique db Jobs "id" k j Hnd Hj He).
  cbn [fmap list_fmap head]. by rewrite project_job_returning.
Qed.

Lemma Job_get_held_witness :
  Job.get (JNum 2) sample_db
  = (Returns {[ "id" := JNum 2; "title" := JStr "Job2"; "salary" := JNum 100;
                "equity" := JStr "0.1"; "companyHandle" := JStr "c1" ]}, sample_db).
Proof.
  refine (Job_get_held sample_db (JNum 2) (JNum 2) (job_row 2 "Job2" 100 "0.1" "c1")
            _ _ _ _).
  - reflexivity.
  - right. left.
  - reflexivity.
  - apply (bool_decide_unpack _). vm_compute. exact I.
Defined.

(** X3: when the company handles are distinct and the company row [c]
    holds the handle, [Company.get] returns the columns of [c]
    (num_employees and logo_url under the names numEmployees and logoUrl)
    and, as jobs, one object with id, title, salary and equity per job
    row whose company_handle is the handle of [c], in table order; when
    there is no such job row, jobs is the one-element list holding an
    object whose four properties are null.  The store is unchanged. *)
Theorem Company_get_held (db : database) (handle k : jsval) (c : row) :
  Db.bind db Companies "handle" handle = Some k →
  c ∈ companies db → Db.sql_eq (prop c "handle") k = true →
  NoDup ((λ r, prop r "handle") <$> companies db) →
  Company.get handle db
  = (Returns {| company_fields :=
                  {[ "handle" := prop c "handle"; "name" := prop c "name";
                     "description" := prop c "description";
                     "numEmployees" := prop c "num_employees";
                     "logoUrl" := prop c "logo_url" ]};
                company_jobs :=
                  match associated_jobs db c with
                  | [] => [null_job]
                  | js => job_view <$> js
                  end |}, db).
Proof.
  intros Hb Hc He Hnd.
  rewrite (Company_get_unique db handle k c Hb
             (matching_unique db Companies "handle" k c Hnd Hc He)).
  by rewrite project_company_returning.
Qed.

Lemma Company_get_held_witness :
  Company.get (JStr "c1") sample_db
  = (Returns {| company_fields :=
                  {[ "handle" := JStr "c1"; "name" := JStr "C1";
                     "description" := JStr "Desc1"; "numEmployees" := JNum 1;
                     "logoUrl" := JStr "http://c1.img" ]};
                company_jobs :=
                  [{[ "id" := JNum 1; "title" := JStr "Job1"; "salary" := JNum 100;
                      "equity" := JStr "0.1" ]};
                   {[ "id" := JNum 2; "title" := JStr "Job2"; "salary" := JNum 100;
                      "equity" := JStr "0.1" ]}] |}, sample_db).
Proof.
  refine (Company_get_held sample_db (JStr "c1") (JStr "c1")
            (company_row "c1" "C1" "Desc1" 1 (JStr "http://c1.img")) _ _ _ _).
  - reflexivity.
  - left.
  - reflexivity.
  - apply (bool_decide_unpack _). vm_compute. exact I.
Defined.

Lemma matching_cons (db : database) (t : table) (c : string) (k : jsval) (r : row) :
  r ∈ Db.rows db t → Db.sql_eq (prop r c) k = true →
  ∃ r' rs, Db.matching db t c k = r' :: rs.
Proof.
  intros Hr He. destruct (Db.matching db t c k) as [|r' rs] eqn:Hm; [|by eauto].
  assert (r ∈ Db.matching db t c k) as Hin by (by apply matching_elem).
  rewrite Hm in Hin. by apply not_elem_of_nil in Hin.
Qed.

(** X4: when a job row holds the id, [Job.remove] returns normally; the
    jobs left are the rows that do not hold the id, in their order, the
    companies are untouched, and a [Job.get] of the same id on the
    resulting store throws NotFoundError. *)
Theorem Job_remove_then_get (db : database) (id k : jsval) (j : row) :
  Db.bind db Jobs "id" id = Some k →
  j ∈ jobs db → Db.sql_eq (prop j "id") k = true →
  ∃ db', Job.remove id db = (Returns tt, db')
         ∧ companies db' = companies db
         ∧ jobs db' = filter (λ r, Db.sql_eq (prop r "id") k = false) (jobs db)
         ∧ Job.get id db' = (Throws (NotFoundError ("No job: " +:+ to_string id)), db').
Proof.
  intros Hb Hj He.
  destruct (matching_cons db Jobs "id" k j Hj He) as (r' & rs & Hm).
  eexists. split; [|split; [|split]].
  - unfold Job.remove, mbind, M_bind, Db.delete. rewrite Hb, Hm. reflexivity.
  - reflexivity.
  - reflexivity.
  - unfold Job.get, mbind, M_bind.
    rewrite (select_eq_bound _ _ _ _ _ k) by (by rewrite bind_set_rows).
    rewrite (matching_after_delete db Jobs "id" k). reflexivity.
Qed.

Lemma Job_remove_then_get_witness :
  ∃ db', Job.remove (JNum 1) sample_db = (Returns tt, db')
         ∧ companies db' = companies sample_db
         ∧ jobs db' = filter (λ r, Db.sql_eq (prop r "id") (JNum 1) = false)
                             (jobs sample_db)
         ∧ Job.get (JNum 1) db'
           = (Throws (NotFoundError ("No job: " +:+ to_string (JNum 1))), db').
Proof.
  refine (Job_remove_then_get sample_db (JNum 1) (JNum 1)
            (job_row 1 "Job1" 100 "0.1" "c1") _ _ _).
  - reflexivity.
  - left.
  - reflexivity.
Defined.

(** X5: when a company row holds the handle and either the jobs table
    cascades the deletion or no job references a company holding the
    handle, [Company.remove] returns normally; the companies left are the
    rows that do not hold the handle, the jobs left are all of them
    (no cascade) or those that reference none of the deleted companies
    (cascade), and a [Company.get] of the same handle on the resulting
    store throws NotFoundError.  Without cascade, a job that references
    the company makes [Company.remove] fail with the database's error and
    the store is unchanged. *)
Theorem Company_remove_then_get (db : database) (fk : Db.on_delete)
    (handle k : jsval) (c : row) :
  Db.bind db Companies "handle" handle = Some k →
  c ∈ companies db → Db.sql_eq (prop c "handle") k = true →
  (fk = Db.Cascade
   ∨ existsb (Db.references (Db.matching db Companies "handle" k)) (jobs db) = false →
   ∃ db', Company.remove fk handle db = (Returns tt, db')
          ∧ companies db'
            = filter (λ r, Db.sql_eq (prop r "handle") k = false) (companies db)
          ∧ jobs db'
            = match fk with
              | Db.Restrict => jobs db
              | Db.Cascade =>
                  filter (λ j, Db.references (Db.matching db Companies "handle" k) j
                               = false) (jobs db)
              end
          ∧ Company.get handle db'
            = (Throws (NotFoundError ("No company: " +:+ to_string handle)), db'))
  ∧ (fk = Db.Restrict →
     existsb (Db.references (Db.matching db Companies "handle" k)) (jobs db) = true →
     Company.remove fk handle db = (Throws DatabaseError, db)).
Proof.
  intros Hb Hc He.
  destruct (matching_cons db Companies "handle" k c Hc He) as (r' & rs & Hm).
  split.
  - assert (∀ db0 : database,
              Db.bind db0 Companies "handle" handle = Some k →
              Db.matching db0 Companies "handle" k = [] →
              Company.get handle db0
              = (Throws (NotFoundError ("No company: " +:+ to_string handle)), db0))
      as Hget.
    { intros db0 Hb0 Hm0. unfold Company.get, mbind, M_bind.
      rewrite (left_join_bound _ _ _ Hb0), Hm0. reflexivity. }
    pose proof (matching_after_delete db Companies "handle" k) as Hgone.
    intros Hfk. destruct fk.
    + destruct Hfk as [Hf|Hf]; [discriminate|].
      eexists. split; [|split; [|split]].
      * unfold Company.remove, mbind, M_bind, Db.delete.
        rewrite Hb, Hf, Hm. reflexivity.
      * reflexivity.
      * reflexivity.
      * apply Hget; [by rewrite bind_set_rows | exact Hgone].
    + eexists. split; [|split; [|split]].
      * unfold Company.remove, mbind, M_bind, Db.delete.
        rewrite Hb, Hm. reflexivity.
      * reflexivity.
      * rewrite Hm. reflexivity.
      * apply Hget; [by rewrite !bind_set_rows | exact Hgone].
  - intros -> Hex. unfold Company.remove, mbind, M_bind, Db.delete.
    rewrite Hb, Hex. reflexivity.
Qed.

Lemma Company_remove_then_get_witness :
  (∃ db', Company.remove Db.Cascade (JStr "c1") sample_db = (Returns tt, db')
          ∧ companies db'
            = filter (λ r, Db.sql_eq (prop r "handle") (JStr "c1") = false)
                     (companies sample_db)
          ∧ jobs db'
            = filter (λ j, Db.references
                             (Db.matching sample_db Companies "handle" (JStr "c1")) j
                           = false) (jobs sample_db)
          ∧ Company.get (JStr "c1") db'
            = (Throws (NotFoundError ("No company: " +:+ to_string (JStr "c1"))), db'))
  ∧ Company.remove Db.Restrict (JStr "c1") sample_db = (Throws DatabaseError, sample_db).
Proof.
  split.
  - refine (proj1 (Company_remove_then_get sample_db Db.Cascade (JStr "c1") (JStr "c1")
                     (company_row "c1" "C1" "Desc1" 1 (JStr "http://c1.img")) _ _ _) _).
    + reflexivity.
    + left.
    + reflexivity.
    + by left.
  - refine (proj2 (Company_remove_then_get sample_db Db.Restrict (JStr "c1") (JStr "c1")
                     (company_row "c1" "C1" "Desc1" 1 (JStr "http://c1.img")) _ _ _) _ _).
    + reflexivity.
    + left.
    + reflexivity.
    + reflexivity.
    + reflexivity.
Defined.

(** X6: [Job.update] never throws NotFoundError, whatever the id, the
    data and the store: its only not-found branch fails with the
    runtime's ReferenceError. *)
Theorem Job_update_never_not_found (id : jsval) (data : obj) (db : database) :
  not_found_thrown (Job.update id data db).1 = false.
Proof.
  unfold Job.update. destruct (sqlForPartialUpdate data Job.jsToSql) as [r|e] eqn:Hs.
  - unfold mbind, M_bind, Db.update.
    destruct (Db.check_update _ _ _ _ _ _) as [[cvs k]|]; [|reflexivity].
    destruct (Db.matching _ _ _ _) as [|h hs]; [reflexivity|].
    destruct (Db.consistent _); reflexivity.
  - unfold sqlForPartialUpdate in Hs. destruct (Nat.eqb _ _); [|discriminate].
    injection Hs as <-. reflexivity.
Qed.

Lemma Job_update_missing_key_reference_error_witness :
  Job.update (JNum 0) [("title", JStr "New"); ("salary", JNum 5)] sample_db
  = (Throws (ReferenceError "handle is not defined"), sample_db).
Proof.
  refine (Job_update_missing_key_reference_error sample_db (JNum 0)
            [("title", JStr "New"); ("salary", JNum 5)] _ _ _).
  - apply (not_holds_key_no_match _ _ _ _ (JNum 0)); reflexivity.
  - discriminate.
  - apply update_admissible_checked; reflexivity.
Defined.

(** ** Successful updates *)

Lemma bind_all_columns (db : database) (t : table) (l cvs : list (string * jsval)) :
  Db.bind_all db t l = Some cvs → cvs.*1 = l.*1.
Proof.
  revert cvs. induction l as [|[c v] l IH]; intros cvs H; cbn in H.
  - by injection H as <-.
  - destruct (bool_decide _); [|discriminate].
    destruct (Db.bind db t c v); [|discriminate].
    destruct (Db.bind_all db t l); [|discriminate].
    injection H as <-. cbn. f_equal. by apply IH.
Qed.

Lemma bind_all_elem (db : database) (t : table) (l cvs : list (string * jsval))
    (c : string) (v : jsval) :
  Db.bind_all db t l = Some cvs → (c, v) ∈ l →
  ∃ v', Db.bind db t c v = Some v' ∧ (c, v') ∈ cvs.
Proof.
  revert cvs. induction l as [|[c0 v0] l IH]; intros cvs H Hin; cbn in H.
  - by apply not_elem_of_nil in Hin.
  - destruct (bool_decide _); [|discriminate].
    destruct (Db.bind db t c0 v0) as [v0'|] eqn:Hb0; [|discriminate].
    destruct (Db.bind_all db t l) as [rest|]; [|discriminate].
    injection H as <-. apply elem_of_cons in Hin as [Heq|Hin].
    + injection Heq as -> ->. exists v0'. split; [done|left].
    + destruct (IH rest eq_refl Hin) as (v' & Hb & Hv'). exists v'. split; [done|by right].
Qed.

Lemma assign_other (cvs : list (string * jsval)) (r : row) (c : string) :
  c ∉ cvs.*1 → prop (Db.assign cvs r) c = prop r c.
Proof.
  revert r. induction cvs as [|[c0 v0] cvs IH]; intros r Hc; [reflexivity|].
  cbn in Hc. apply not_elem_of_cons in Hc as [Hne Hc].
  unfold Db.assign. cbn [foldl fst snd]. fold (Db.assign cvs (<[c0:=v0]> r)).
  rewrite IH by done. rewrite prop_insert. by destruct (decide (c0 = c)).
Qed.

Lemma assign_elem (cvs : list (string * jsval)) (r : row) (c : string) (v : jsval) :
  NoDup cvs.*1 → (c, v) ∈ cvs → prop (Db.assign cvs r) c = v.
Proof.
  revert r. induction cvs as [|[c0 v0] cvs IH]; intros r Hnd Hin.
  - by apply not_elem_of_nil in Hin.
  - cbn in Hnd. apply NoDup_cons in Hnd as [Hc0 Hnd].
    unfold Db.assign. cbn [foldl fst snd]. fold (Db.assign cvs (<[c0:=v0]> r)).
    apply elem_of_cons in Hin as [Heq|Hin].
    + injection Heq as -> ->. rewrite assign_other by done.
      rewrite prop_insert. by destruct (decide (c0 = c0)).
    + by apply IH.
Qed.

(** What a successful UPDATE built from [data] returns first: a row
    holding the key, with the bound values of [data] written in. *)
Lemma update_returns (db db' : database) (t : table) (data : obj)
    (jsToSql : gmap string string) (key_column : string) (key : jsval)
    (ret : list (string * string)) (x : row) (xs : list row) :
  Db.update t (set_list data jsToSql) key_column (length (Object_values data) + 1)
    ret (Object_values data ++ [key]) db = (Returns (x :: xs), db') →
  ∃ cvs k h,
    Db.bind db t key_column key = Some k
    ∧ NoDup cvs.*1
    ∧ Db.bind_all db t ((λ kv, (sql_column jsToSql kv.1, kv.2)) <$> data) = Some cvs
    ∧ h ∈ Db.rows db t ∧ Db.sql_eq (prop h key_column) k = true
    ∧ x = Db.project ret (Db.assign cvs h)
    ∧ db' = Db.set_rows db t
              ((λ r, if Db.sql_eq (prop r key_column) k then Db.assign cvs r else r)
               <$> Db.rows db t).
Proof.
  unfold Db.update. rewrite check_update_built.
  destruct (bool_decide (NoDup _)) eqn:Hnd; [|discriminate]. cbn [negb].
  apply bool_decide_eq_true in Hnd.
  destruct (Db.bind_all _ _ _) as [cvs|] eqn:Hcvs; [|discriminate].
  destruct (Db.bind db t key_column key) as [k|] eqn:Hk; [|discriminate].
  destruct (Db.matching db t key_column k) as [|h hs] eqn:Hm; [discriminate|].
  destruct (Db.consistent _); [|discriminate].
  intros H. injection H as Hx _ Hdb.
  assert (h ∈ Db.matching db t key_column k) as Hin by (rewrite Hm; left).
  apply matching_elem in Hin as [Hh He].
  exists cvs, k, h. repeat split; try done.
  rewrite (bind_all_columns _ _ _ _ Hcvs), <- list_fmap_compose.
  rewrite <- list_fmap_compose in Hnd. exact Hnd.
Qed.

Lemma company_returning_field (x : row) (f : string) :
  f ∈ ["handle"; "name"; "description"; "numEmployees"; "logoUrl"] →
  prop (Db.project Company.returning x) f = prop x (sql_column Company.jsToSql f).
Proof.
  intros Hf. repeat (apply elem_of_cons in Hf as [->|Hf]; [reflexivity|]).
  by apply not_elem_of_nil in Hf.
Qed.

Lemma job_returning_field (x : row) (f : string) :
  f ∈ ["id"; "title"; "salary"; "equity"; "companyHandle"] →
  prop (Db.project Job.returning x) f = prop x (sql_column Job.jsToSql f).
Proof.
  intros Hf. repeat (apply elem_of_cons in Hf as [->|Hf]; [reflexivity|]).
  by apply not_elem_of_nil in Hf.
Qed.

(** The fields of an updated row, read through a RETURNING list that
    agrees with the translation [jsToSql]. *)
Lemma updated_fields (db : database) (t : table) (data : obj)
    (jsToSql : gmap string string) (ret : list (string * string))
    (names : list string) (cvs : list (string * jsval)) (h : row) :
  (∀ x f, f ∈ names → prop (Db.project ret x) f = prop x (sql_column jsToSql f)) →
  NoDup cvs.*1 →
  Db.bind_all db t ((λ kv, (sql_column jsToSql kv.1, kv.2)) <$> data) = Some cvs →
  (∀ f v, (f, v) ∈ data → f ∈ names →
     Db.bind db t (sql_column jsToSql f) v
     = Some (prop (Db.project ret (Db.assign cvs h)) f))
  ∧ (∀ f, f ∈ names → sql_column jsToSql f ∉ sql_column jsToSql <$> data.*1 →
       prop (Db.project ret (Db.assign cvs h)) f = prop h (sql_column jsToSql f)).
Proof.
  intros Hret Hnd Hcvs. split.
  - intros f v Hin Hf. rewrite Hret by done.
    destruct (bind_all_elem db t _ cvs (sql_column jsToSql f) v Hcvs) as (v' & Hb & Hv').
    { apply list_elem_of_fmap. by exists (f, v). }
    rewrite Hb. f_equal. symmetry. by apply assign_elem.
  - intros f Hf Hout. rewrite Hret by done. apply assign_other.
    rewrite (bind_all_columns _ _ _ _ Hcvs), <- list_fmap_compose.
    rewrite <- list_fmap_compose in Hout. exact Hout.
Qed.

(** X8: for data whose fields all name, through the translation,
    columns of the companies table: when [Company.update] returns a
    company, some company row [c] held the handle; for every field of the
    data among handle, name, description, numEmployees and logoUrl the
    returned property is the value the field's column took from the
    data; for every such field whose column the data does not assign, the
    returned property is what [c] held before; and the jobs are
    untouched. *)
Theorem Company_update_returns_written (db db' : database) (key : jsval)
    (data : obj) (company : row) :
  Forall (λ kv, sql_column Company.jsToSql kv.1 ∈ Db.columns Companies) data →
  Company.update key data db = (Returns company, db') →
  ∃ c k,
    Db.bind db Companies "handle" key = Some k
    ∧ c ∈ companies db ∧ Db.sql_eq (prop c "handle") k = true
    ∧ (∀ f v, (f, v) ∈ data →
         f ∈ ["handle"; "name"; "description"; "numEmployees"; "logoUrl"] →
         Db.bind db Companies (sql_column Company.jsToSql f) v = Some (prop company f))
    ∧ (∀ f, f ∈ ["handle"; "name"; "description"; "numEmployees"; "logoUrl"] →
         sql_column Company.jsToSql f ∉ sql_column Company.jsToSql <$> data.*1 →
         prop company f = prop c (sql_column Company.jsToSql f))
    ∧ jobs db' = jobs db.
Proof.
  intros _. unfold Company.update. destruct data as [|kv data]; [discriminate|].
  rewrite sqlForPartialUpdate_cons. cbn [values]. unfold mbind, M_bind.
  destruct (Db.update _ _ _ _ _ _ db) as [[[|x xs]|e] db1] eqn:Hu; try discriminate.
  intros H. injection H as <- <-.
  destruct (update_returns _ _ _ _ _ _ _ _ _ _ Hu)
    as (cvs & k & h & Hk & Hnd & Hcvs & Hh & He & -> & ->).
  exists h, k. split; [done|]. split; [done|]. split; [done|].
  destruct (updated_fields db Companies (kv :: data) Company.jsToSql Company.returning
              ["handle"; "name"; "description"; "numEmployees"; "logoUrl"] cvs h)
    as [Hw Ho]; try done.
  intros x f. apply company_returning_field.
Qed.

(** X9: for data whose fields all name, through the translation,
    columns of the jobs table: when [Job.update] returns a job, some job
    row [j] held the id; for every field of the data among id, title,
    salary, equity and companyHandle the returned property is the value
    the field's column took from the data; for every such field whose
    column the data does not assign, the returned property is what [j]
    held before; and the companies are untouched. *)
Theorem Job_update_returns_written (db db' : database) (key : jsval)
    (data : obj) (job : row) :
  Forall (λ kv, sql_column Job.jsToSql kv.1 ∈ Db.columns Jobs) data →
  Job.update key data db = (Returns job, db') →
  ∃ j k,
    Db.bind db Jobs "id" key = Some k
    ∧ j ∈ jobs db ∧ Db.sql_eq (prop j "id") k = true
    ∧ (∀ f v, (f, v) ∈ data →
         f ∈ ["id"; "title"; "salary"; "equity"; "companyHandle"] →
         Db.bind db Jobs (sql_column Job.jsToSql f) v = Some (prop job f))
    ∧ (∀ f, f ∈ ["id"; "title"; "salary"; "equity"; "companyHandle"] →
         sql_column Job.jsToSql f ∉ sql_column Job.jsToSql <$> data.*1 →
         prop job f = prop j (sql_column Job.jsToSql f))
    ∧ companies db' = companies db.
Proof.
  intros _. unfold Job.update. destruct data as [|kv data]; [discriminate|].
  rewrite sqlForPartialUpdate_cons. cbn [values]. unfold mbind, M_bind.
  destruct (Db.update _ _ _ _ _ _ db) as [[[|x xs]|e] db1] eqn:Hu; try discriminate.
  intros H. injection H as <- <-.
  destruct (update_returns _ _ _ _ _ _ _ _ _ _ Hu)
    as (cvs & k & h & Hk & Hnd & Hcvs & Hh & He & -> & ->).
  exists h, k. split; [done|]. split; [done|]. split; [done|].
  destruct (updated_fields db Jobs (kv :: data) Job.jsToSql Job.returning
              ["id"; "title"; "salary"; "equity"; "companyHandle"] cvs h)
    as [Hw Ho]; try done.
  intros x f. apply job_returning_field.
Qed.

Lemma Company_update_returns_written_witness :
  ∃ c k,
    Db.bind sample_db Companies "handle" (JStr "c1") = Some k
    ∧ c ∈ companies sample_db ∧ Db.sql_eq (prop c "handle") k = true
    ∧ (∀ f v, (f, v) ∈ rename_c1 →
         f ∈ ["handle"; "name"; "description"; "numEmployees"; "logoUrl"] →
         Db.bind sample_db Companies (sql_column Company.jsToSql f) v
         = Some (prop renamed_c1 f))
    ∧ (∀ f, f ∈ ["handle"; "name"; "description"; "numEmployees"; "logoUrl"] →
         sql_column Company.jsToSql f ∉ sql_column Company.jsToSql <$> rename_c1.*1 →
         prop renamed_c1 f = prop c (sql_column Company.jsToSql f))
    ∧ jobs (Company.update (JStr "c1") rename_c1 sample_db).2 = jobs sample_db.
Proof.
  apply (Company_update_returns_written sample_db
           (Company.update (JStr "c1") rename_c1 sample_db).2 (JStr "c1")
           rename_c1 renamed_c1).
  - apply (bool_decide_unpack _). vm_compute. exact I.
  - vm_compute. exact eq_refl.
Defined.

Lemma Job_update_returns_written_witness :
  ∃ j k,
    Db.bind sample_db Jobs "id" (JNum 2) = Some k
    ∧ j ∈ jobs sample_db ∧ Db.sql_eq (prop j "id") k = true
    ∧ (∀ f v, (f, v) ∈ retitle_job2 →
         f ∈ ["id"; "title"; "salary"; "equity"; "companyHandle"] →
         Db.bind sample_db Jobs (sql_column Job.jsToSql f) v
         = Some (prop retitled_job2 f))
    ∧ (∀ f, f ∈ ["id"; "title"; "salary"; "equity"; "companyHandle"] →
         sql_column Job.jsToSql f ∉ sql_column Job.jsToSql <$> retitle_job2.*1 →
         prop retitled_job2 f = prop j (sql_column Job.jsToSql f))
    ∧ companies (Job.update (JNum 2) retitle_job2 sample_db).2 = companies sample_db.
Proof.
  apply (Job_update_returns_written sample_db
           (Job.update (JNum 2) retitle_job2 sample_db).2 (JNum 2)
           retitle_job2 retitled_job2).
  - apply (bool_decide_unpack _). vm_compute. exact I.
  - vm_compute. exact eq_refl.
Defined.

(** ** Successful creations *)

Lemma insert_returns (db db' : database) (t : table) (into : list string)
    (ret : list (string * string)) (params : list jsval) (rs : list row) :
  Db.insert t into ret params db = (Returns rs, db') →
  ∃ cvs, Db.bind_all db t (zip into params) = Some cvs
         ∧ rs = [Db.project ret (Db.assign cvs (Db.fresh_row db t))]
         ∧ db' = Db.advance_seq
                   (Db.set_rows db t
                      (Db.rows db t ++ [Db.assign cvs (Db.fresh_row db t)])) t
         ∧ Db.consistent db' = true.
Proof.
  unfold Db.insert. destruct (negb (_ =? _)); [discriminate|].
  destruct (negb (bool_decide _)); [discriminate|].
  destruct (Db.bind_all _ _ _) as [cvs|]; [|discriminate].
  destruct (Db.consistent _) eqn:Hc; [|discriminate].
  intros H. injection H as <- <-. by exists cvs.
Qed.

Lemma company_row_built (db : database) (k kn kd ke kl : jsval) :
  Db.assign [("handle", k); ("name", kn); ("description", kd);
             ("num_employees", ke); ("logo_url", kl)] (Db.fresh_row db Companies)
  = {[ "handle" := k; "name" := kn; "description" := kd; "num_employees" := ke;
       "logo_url" := kl ]}.
Proof. vm_compute. exact eq_refl. Qed.

Lemma job_row_built (db : database) (kt ks ke kc : jsval) :
  Db.assign [("title", kt); ("salary", ks); ("equity", ke); ("company_handle", kc)]
            (Db.fresh_row db Jobs)
  = {[ "id" := JNum (jobs_id_seq db + 1); "title" := kt; "salary" := ks;
       "equity" := ke; "company_handle" := kc ]}.
Proof.
  unfold Db.fresh_row. generalize (JNum (jobs_id_seq db + 1)). intros i.
  vm_compute. exact eq_refl.
Qed.

(** What a successful [Company.create] did: the handle was held by no
    row, the five values were accepted by their columns, and the row made
    of them was appended. *)
Lemma Company_create_returns (db db' : database) (data : gmap string jsval)
    (oc : option row) :
  Company.create data db = (Returns oc, db') →
  ∃ k kn kd ke kl,
    Db.bind db Companies "handle" (prop data "handle") = Some k
    ∧ Db.bind db Companies "name" (prop data "name") = Some kn
    ∧ Db.bind db Companies "description" (prop data "description") = Some kd
    ∧ Db.bind db Companies "num_employees" (prop data "numEmployees") = Some ke
    ∧ Db.bind db Companies "logo_url" (prop data "logoUrl") = Some kl
    ∧ Db.matching db Companies "handle" k = []
    ∧ oc = Some {[ "handle" := k; "name" := kn; "description" := kd;
                   "numEmployees" := ke; "logoUrl" := kl ]}
    ∧ db' = Db.set_rows db Companies
              (companies db ++ [{[ "handle" := k; "name" := kn; "description" := kd;
                                   "num_employees" := ke; "logo_url" := kl ]}])
    ∧ Db.consistent db' = true.
Proof.
  unfold Company.create, mbind, M_bind, Db.select_eq.
  destruct (Db.bind db Companies "handle" (prop data "handle")) as [k|] eqn:Hk;
    [|discriminate].
  destruct (Db.matching db Companies "handle" k) as [|h hs] eqn:Hm; [|discriminate].
  cbn [fmap list_fmap head].
  destruct (Db.insert _ _ _ _ db) as [[rs|e] db1] eqn:Hi; [|discriminate].
  intros H. injection H as <- <-.
  apply insert_returns in Hi as (cvs & Hcvs & -> & -> & Hc).
  cbn [zip_with Db.bind_all] in Hcvs.
  rewrite Hk in Hcvs.
  destruct (Db.bind db Companies "name" _) as [kn|] eqn:Hn;
    [|by repeat case_bool_decide].
  destruct (Db.bind db Companies "description" _) as [kd|] eqn:Hd;
    [|by repeat case_bool_decide].
  destruct (Db.bind db Companies "num_employees" _) as [ke|] eqn:He;
    [|by repeat case_bool_decide].
  destruct (Db.bind db Companies "logo_url" _) as [kl|] eqn:Hl;
    [|by repeat case_bool_decide].
  assert (cvs = [("handle", k); ("name", kn); ("description", kd);
                 ("num_employees", ke); ("logo_url", kl)]) as ->.
  { repeat case_bool_decide; congruence. }
  rewrite company_row_built in *.
  exists k, kn, kd, ke, kl. repeat split; done.
Qed.

(** What a successful [Job.create] did: the title was held by no row, the
    four values were accepted by their columns, and the row made of them
    and of the next id of the sequence was appended. *)
Lemma Job_create_returns (db db' : database) (data : gmap string jsval)
    (oj : option row) :
  Job.create data db = (Returns oj, db') →
  ∃ kt ks ke kc,
    Db.bind db Jobs "title" (prop data "title") = Some kt
    ∧ Db.bind db Jobs "salary" (prop data "salary") = Some ks
    ∧ Db.bind db Jobs "equity" (prop data "equity") = Some ke
    ∧ Db.bind db Jobs "company_handle" (prop data "company_handle") = Some kc
    ∧ Db.matching db Jobs "title" kt = []
    ∧ oj = Some {[ "id" := JNum (jobs_id_seq db + 1); "title" := kt; "salary" := ks;
                   "equity" := ke; "companyHandle" := kc ]}
    ∧ db' = Db.advance_seq
              (Db.set_rows db Jobs
                 (jobs db ++ [{[ "id" := JNum (jobs_id_seq db + 1); "title" := kt;
                                 "salary" := ks; "equity" := ke;
                                 "company_handle" := kc ]}])) Jobs
    ∧ Db.consistent db' = true.
Proof.
  unfold Job.create, mbind, M_bind, Db.select_eq.
  destruct (Db.bind db Jobs "title" (prop data "title")) as [kt|] eqn:Ht;
    [|discriminate].
  destruct (Db.matching db Jobs "title" kt) as [|h hs] eqn:Hm; [|discriminate].
  cbn [fmap list_fmap head].
  destruct (Db.insert _ _ _ _ db) as [[rs|e] db1] eqn:Hi; [|discriminate].
  intros H. injection H as <- <-.
  apply insert_returns in Hi as (cvs & Hcvs & -> & -> & Hc).
  cbn [zip_with Db.bind_all] in Hcvs.
  rewrite Ht in Hcvs.
  destruct (Db.bind db Jobs "salary" _) as [ks|] eqn:Hs;
    [|by repeat case_bool_decide].
  destruct (Db.bind db Jobs "equity" _) as [ke|] eqn:He;
    [|by repeat case_bool_decide].
  destruct (Db.bind db Jobs "company_handle" _) as [kc|] eqn:Hh;
    [|by repeat case_bool_decide].
  assert (cvs = [("title", kt); ("salary", ks); ("equity", ke);
                 ("company_handle", kc)]) as ->.
  { repeat case_bool_decide; congruence. }
  rewrite job_row_built in *.
  exists kt, ks, ke, kc. repeat split; done.
Qed.

(** A value that is neither NULL nor undefined equals itself in SQL. *)
Lemma sql_eq_refl (k : jsval) : k ≠ JNull → k ≠ JUndefined → Db.sql_eq k k = true.
Proof. destruct k; intros; try done; cbn; by apply bool_decide_eq_true. Qed.

Lemma consistent_parts (db : database) :
  Db.consistent db = true →
  NoDup ((λ r, prop r "handle") <$> companies db)
  ∧ NoDup ((λ r, prop r "id") <$> jobs db)
  ∧ ∀ j, j ∈ jobs db →
      Db.matching db Companies "handle" (prop j "company_handle") ≠ [].
Proof.
  unfold Db.consistent. intros H.
  apply andb_true_iff in H as [H Hfk]. apply andb_true_iff in H as [Hh Hi].
  apply bool_decide_eq_true in Hh, Hi. split; [done|]. split; [done|].
  intros j Hj. rewrite forallb_forall in Hfk.
  apply list_elem_of_In, Hfk in Hj. apply negb_true_iff in Hj.
  by apply bool_decide_eq_false in Hj.
Qed.

(** X10: when [Company.create] returns a company, no row held the
    handle before; each returned property is the value its column took
    from the data (numEmployees and logoUrl from the fields of the same
    names); the companies afterwards are the old ones followed by the new
    row, and the jobs are untouched. *)
Theorem Company_create_returns_stored (db db' : database)
    (data : gmap string jsval) (company : row) :
  Company.create data db = (Returns (Some company), db') →
  Db.bind db Companies "handle" (prop data "handle") = Some (prop company "handle")
  ∧ Db.bind db Companies "name" (prop data "name") = Some (prop company "name")
  ∧ Db.bind db Companies "description" (prop data "description")
    = Some (prop company "description")
  ∧ Db.bind db Companies "num_employees" (prop data "numEmployees")
    = Some (prop company "numEmployees")
  ∧ Db.bind db Companies "logo_url" (prop data "logoUrl")
    = Some (prop company "logoUrl")
  ∧ ¬ Db.holds_key db Companies "handle" (prop data "handle")
  ∧ companies db'
    = companies db
      ++ [{[ "handle" := prop company "handle"; "name" := prop company "name";
             "description" := prop company "description";
             "num_employees" := prop company "numEmployees";
             "logo_url" := prop company "logoUrl" ]}]
  ∧ jobs db' = jobs db.
Proof.
  intros H.
  apply Company_create_returns
    in H as (k & kn & kd & ke & kl & Hk & Hn & Hd & He & Hl & Hm & Hc & -> & _).
  injection Hc as ->.
  repeat split; try done.
  by apply (not_holds_key_no_match _ _ _ _ k).
Qed.

Lemma Company_create_returns_stored_witness :
  Db.bind sample_db Companies "handle" (prop new_company "handle")
  = Some (prop created_company "handle")
  ∧ Db.bind sample_db Companies "name" (prop new_company "name")
    = Some (prop created_company "name")
  ∧ Db.bind sample_db Companies "description" (prop new_company "description")
    = Some (prop created_company "description")
  ∧ Db.bind sample_db Companies "num_employees" (prop new_company "numEmployees")
    = Some (prop created_company "numEmployees")
  ∧ Db.bind sample_db Companies "logo_url" (prop new_company "logoUrl")
    = Some (prop created_company "logoUrl")
  ∧ ¬ Db.holds_key sample_db Companies "handle" (prop new_company "handle")
  ∧ companies (Company.create new_company sample_db).2
    = companies sample_db
      ++ [{[ "handle" := prop created_company "handle";
             "name" := prop created_company "name";
             "description" := prop created_company "description";
             "num_employees" := prop created_company "numEmployees";
             "logo_url" := prop created_company "logoUrl" ]}]
  ∧ jobs (Company.create new_company sample_db).2 = jobs sample_db.
Proof.
  apply (Company_create_returns_stored sample_db
           (Company.create new_company sample_db).2 new_company created_company).
  vm_compute. exact eq_refl.
Defined.

(** X11: when [Job.create] returns a job, no row held the title before;
    the returned id is the next value of the id sequence, which advances
    by one; title, salary and equity are the values their columns took
    from the data and companyHandle the one taken from the field
    company_handle; that handle is held by a company; the jobs
    afterwards are the old ones followed by the new row, and the
    companies are untouched. *)
Theorem Job_create_returns_stored (db db' : database) (data : gmap string jsval)
    (job : row) :
  Job.create data db = (Returns (Some job), db') →
  prop job "id" = JNum (jobs_id_seq db + 1)
  ∧ jobs_id_seq db' = (jobs_id_seq db + 1)%Z
  ∧ Db.bind db Jobs "title" (prop data "title") = Some (prop job "title")
  ∧ Db.bind db Jobs "salary" (prop data "salary") = Some (prop job "salary")
  ∧ Db.bind db Jobs "equity" (prop data "equity") = Some (prop job "equity")
  ∧ Db.bind db Jobs "company_handle" (prop data "company_handle")
    = Some (prop job "companyHandle")
  ∧ ¬ Db.holds_key db Jobs "title" (prop data "title")
  ∧ (∃ c, c ∈ companies db
          ∧ Db.sql_eq (prop c "handle") (prop job "companyHandle") = true)
  ∧ jobs db'
    = jobs db
      ++ [{[ "id" := prop job "id"; "title" := prop job "title";
             "salary" := prop job "salary"; "equity" := prop job "equity";
             "company_handle" := prop job "companyHandle" ]}]
  ∧ companies db' = companies db.
Proof.
  intros H.
  apply Job_create_returns
    in H as (kt & ks & ke & kc & Ht & Hs & He & Hh & Hm & Hj & -> & Hcons).
  injection Hj as ->.
  apply consistent_parts in Hcons as (_ & _ & Hfk).
  repeat split; try done.
  - by apply (not_holds_key_no_match _ _ _ _ kt).
  - specialize (Hfk {[ "id" := JNum (jobs_id_seq db + 1); "title" := kt;
                       "salary" := ks; "equity" := ke; "company_handle" := kc ]}).
    cbn [jobs Db.advance_seq Db.set_rows] in Hfk.
    destruct (Db.matching _ Companies "handle" _) as [|c cs] eqn:Hmc.
    { exfalso. apply Hfk; [|done]. apply elem_of_app. right. left. }
    assert (c ∈ c :: cs) as Hin by left. rewrite <- Hmc in Hin.
    apply matching_elem in Hin as [Hc Heq]. exists c. split; [exact Hc|exact Heq].
Qed.

Lemma Job_create_returns_stored_witness :
  prop created_job "id" = JNum (jobs_id_seq sample_db + 1)
  ∧ jobs_id_seq (Job.create new_job sample_db).2 = (jobs_id_seq sample_db + 1)%Z
  ∧ Db.bind sample_db Jobs "title" (prop new_job "title")
    = Some (prop created_job "title")
  ∧ Db.bind sample_db Jobs "salary" (prop new_job "salary")
    = Some (prop created_job "salary")
  ∧ Db.bind sample_db Jobs "equity" (prop new_job "equity")
    = Some (prop created_job "equity")
  ∧ Db.bind sample_db Jobs "company_handle" (prop new_job "company_handle")
    = Some (prop created_job "companyHandle")
  ∧ ¬ Db.holds_key sample_db Jobs "title" (prop new_job "title")
  ∧ (∃ c, c ∈ companies sample_db
          ∧ Db.sql_eq (prop c "handle") (prop created_job "companyHandle") = true)
  ∧ jobs (Job.create new_job sample_db).2
    = jobs sample_db
      ++ [{[ "id" := prop created_job "id"; "title" := prop created_job "title";
             "salary" := prop created_job "salary";
             "equity" := prop created_job "equity";
             "company_handle" := prop created_job "companyHandle" ]}]
  ∧ companies (Job.create new_job sample_db).2 = companies sample_db.
Proof.
  apply (Job_create_returns_stored sample_db (Job.create new_job sample_db).2
           new_job created_job).
  vm_compute. exact eq_refl.
Defined.

Lemma bind_advance_seq (db : database) (t t' : table) (c : string) (v : jsval) :
  Db.bind (Db.advance_seq db t') t c v = Db.bind db t c v.
Proof. by destruct t', v. Qed.

(** X12: after [Company.create] has returned a company whose handle is
    not null, on a store that satisfied its constraints, [Company.get] of
    the same handle on the resulting store returns that company, with a
    jobs list of one object whose id, title, salary and equity are
    null. *)
Theorem Company_create_then_get (db db' : database) (data : gmap string jsval)
    (company : row) :
  Company.create data db = (Returns (Some company), db') →
  Db.consistent db = true →
  prop company "handle" ≠ JNull → prop company "handle" ≠ JUndefined →
  Company.get (prop data "handle") db'
  = (Returns {| company_fields := company; company_jobs := [null_job] |}, db').
Proof.
  intros H Hcons Hnull Hundef.
  apply Company_create_returns
    in H as (k & kn & kd & ke & kl & Hk & _ & _ & _ & _ & Hm & Hc & -> & Hcons').
  injection Hc as ->.
  change (prop _ "handle") with k in Hnull, Hundef.
  set (r := ({[ "handle" := k; "name" := kn; "description" := kd;
                "num_employees" := ke; "logo_url" := kl ]} : row)) in *.
  apply consistent_parts in Hcons as (_ & _ & Hfk).
  apply consistent_parts in Hcons' as (Hnd & _ & _).
  assert (Db.sql_eq (prop r "handle") k = true) as Hr by (by apply sql_eq_refl).
  rewrite (Company_get_unique _ _ k r).
  - assert (associated_jobs (Db.set_rows db Companies (companies db ++ [r])) r = [])
      as ->.
    { unfold associated_jobs. cbn [jobs Db.set_rows]. apply filter_none.
      intros j Hj Href. apply (Hfk j Hj).
      apply sql_eq_true in Href. rewrite <- Href. exact Hm. }
    reflexivity.
  - by rewrite bind_set_rows.
  - apply matching_unique; [exact Hnd| |exact Hr].
    cbn [Db.rows Db.set_rows companies]. apply elem_of_app. right. left.
Qed.

Lemma Company_create_then_get_witness :
  Company.get (prop new_company "handle") (Company.create new_company sample_db).2
  = (Returns {| company_fields := created_company; company_jobs := [null_job] |},
     (Company.create new_company sample_db).2).
Proof.
  refine (Company_create_then_get sample_db (Company.create new_company sample_db).2
            new_company created_company _ _ _ _).
  - vm_compute. exact eq_refl.
  - vm_compute. exact eq_refl.
  - discriminate.
  - discriminate.
Defined.

(** X13: after [Job.create] has returned a job, and when the id column
    takes the returned id as it is, [Job.get] of that id on the resulting
    store returns the same job. *)
Theorem Job_create_then_get (db db' : database) (data : gmap string jsval)
    (job : row) :
  Job.create data db = (Returns (Some job), db') →
  column_input db Jobs "id" (prop job "id") = Some (prop job "id") →
  Job.get (prop job "id") db' = (Returns job, db').
Proof.
  intros H Hid.
  apply Job_create_returns
    in H as (kt & ks & ke & kc & _ & _ & _ & _ & _ & Hj & -> & Hcons).
  injection Hj as ->.
  change (prop _ "id") with (JNum (jobs_id_seq db + 1)) in *.
  set (r := ({[ "id" := JNum (jobs_id_seq db + 1); "title" := kt; "salary" := ks;
                "equity" := ke; "company_handle" := kc ]} : row)) in *.
  apply consistent_parts in Hcons as (_ & Hnd & _).
  unfold Job.get, mbind, M_bind.
  rewrite (select_eq_bound _ _ _ _ _ (JNum (jobs_id_seq db + 1)))
    by (rewrite bind_advance_seq, bind_set_rows; exact Hid).
  rewrite (matching_unique _ Jobs "id" _ r).
  - reflexivity.
  - exact Hnd.
  - cbn [Db.rows Db.advance_seq Db.set_rows jobs]. apply elem_of_app. right. left.
  - cbn. by apply bool_decide_eq_true.
Qed.

Lemma Job_create_then_get_witness :
  Job.get (prop created_job "id") (Job.create new_job sample_db).2
  = (Returns created_job, (Job.create new_job sample_db).2).
Proof.
  refine (Job_create_then_get sample_db (Job.create new_job sample_db).2
            new_job created_job _ _).
  - vm_compute. exact eq_refl.
  - reflexivity.
Defined.

(** X14: once [Company.create] has returned a company whose handle is
    not null, a [Company.create] on the resulting store with any data of
    the same handle throws BadRequestError (Duplicate company) and
    changes nothing; likewise once [Job.create] has returned a job whose
    title is not null, a [Job.create] with any data of the same title,
    whatever its company, throws BadRequestError (Duplicate job). *)
Theorem create_twice_rejected (db db' : database) (data data' : gmap string jsval)
    (created : row) :
  (Company.create data db = (Returns (Some created), db') →
   prop created "handle" ≠ JNull → prop created "handle" ≠ JUndefined →
   prop data' "handle" = prop data "handle" →
   Company.create data' db'
   = (Throws (BadRequestError
                ("Duplicate company: " +:+ to_string (prop data "handle"))), db'))
  ∧ (Job.create data db = (Returns (Some created), db') →
     prop created "title" ≠ JNull → prop created "title" ≠ JUndefined →
     prop data' "title" = prop data "title" →
     Job.create data' db'
     = (Throws (BadRequestError
                  ("Duplicate job: " +:+ to_string (prop data "title"))), db')).
Proof.
  split; intros H Hnull Hundef Hsame.
  - apply Company_create_returns
      in H as (k & kn & kd & ke & kl & Hk & _ & _ & _ & _ & _ & Hc & -> & _).
    injection Hc as ->. change (prop _ "handle") with k in Hnull, Hundef.
    destruct (select_eq_held
                (Db.set_rows db Companies
                   (companies db ++ [{[ "handle" := k; "name" := kn;
                                        "description" := kd; "num_employees" := ke;
                                        "logo_url" := kl ]}]))
                Companies [("handle", "handle")] "handle" (prop data' "handle"))
      as (r & rs & Hsel).
    { exists k, {[ "handle" := k; "name" := kn; "description" := kd;
                   "num_employees" := ke; "logo_url" := kl ]}.
      split; [by rewrite Hsame, bind_set_rows|]. split.
      - cbn [Db.rows Db.set_rows companies]. apply elem_of_app. right. left.
      - by apply sql_eq_refl. }
    unfold Company.create, mbind, M_bind. rewrite Hsel, Hsame. reflexivity.
  - apply Job_create_returns
      in H as (kt & ks & ke & kc & Ht & _ & _ & _ & _ & Hj & -> & _).
    injection Hj as ->. change (prop _ "title") with kt in Hnull, Hundef.
    destruct (select_eq_held
                (Db.advance_seq
                   (Db.set_rows db Jobs
                      (jobs db ++ [{[ "id" := JNum (jobs_id_seq db + 1);
                                      "title" := kt; "salary" := ks; "equity" := ke;
                                      "company_handle" := kc ]}])) Jobs)
                Jobs [("title", "title")] "title" (prop data' "title"))
      as (r & rs & Hsel).
    { exists kt, {[ "id" := JNum (jobs_id_seq db + 1); "title" := kt; "salary" := ks;
                    "equity" := ke; "company_handle" := kc ]}.
      split; [by rewrite Hsame, bind_advance_seq, bind_set_rows|]. split.
      - cbn [Db.rows Db.advance_seq Db.set_rows jobs]. apply elem_of_app. right. left.
      - by apply sql_eq_refl. }
    unfold Job.create, mbind, M_bind. rewrite Hsel, Hsame. reflexivity.
Qed.

Lemma create_twice_rejected_witness :
  Company.create (<["name" := JStr "Other"]> new_company)
    (Company.create new_company sample_db).2
  = (Throws (BadRequestError
               ("Duplicate company: " +:+ to_string (prop new_company "handle"))),
     (Company.create new_company sample_db).2)
  ∧ Job.create (<["company_handle" := JStr "c1"]> new_job)
      (Job.create new_job sample_db).2
    = (Throws (BadRequestError
                 ("Duplicate job: " +:+ to_string (prop new_job "title"))),
       (Job.create new_job sample_db).2).
Proof.
  split.
  - refine (proj1 (create_twice_rejected sample_db
                     (Company.create new_company sample_db).2 new_company
                     (<["name" := JStr "Other"]> new_company) created_company)
              _ _ _ _).
    + vm_compute. exact eq_refl.
    + discriminate.
    + discriminate.
    + reflexivity.
  - refine (proj2 (create_twice_rejected sample_db
                     (Job.create new_job sample_db).2 new_job
                     (<["company_handle" := JStr "c1"]> new_job) created_job)
              _ _ _ _).
    + vm_compute. exact eq_refl.
    + discriminate.
    + discriminate.
    + reflexivity.
Defined.

(** X15: the SQL text never holds a value.  The query text of
    [Company.findAll] and of [Job.findAll] is the same for any two filter
    objects that agree on which filters are taken (truthy name, title,
    minEmployees, maxEmployees, minSalary; hasEquity not undefined), and
    the SET text of [sqlForPartialUpdate] is the same for any two
    mappings with the same keys. *)
Theorem sql_text_ignores_values (a b : gmap string jsval) (d d' : obj)
    (jsToSql : gmap string string) :
  (truthy (prop a "name") = truthy (prop b "name") →
   truthy (prop a "minEmployees") = truthy (prop b "minEmployees") →
   truthy (prop a "maxEmployees") = truthy (prop b "maxEmployees") →
   query (Company.findAll_statement (Some a))
   = query (Company.findAll_statement (Some b)))
  ∧ (truthy (prop a "title") = truthy (prop b "title") →
     truthy (prop a "minSalary") = truthy (prop b "minSalary") →
     bool_decide (prop a "hasEquity" = JUndefined)
     = bool_decide (prop b "hasEquity" = JUndefined) →
     query (Job.findAll_statement (Some a)) = query (Job.findAll_statement (Some b)))
  ∧ (Object_keys d = Object_keys d' →
     ∀ r r', sqlForPartialUpdate d jsToSql = Returns r →
             sqlForPartialUpdate d' jsToSql = Returns r' →
             setCols r = setCols r').
Proof.
  split; [|split].
  - unfold Company.findAll_statement. cbn [from_option id]. intros -> -> ->.
    filter_cases; reflexivity.
  - unfold Job.findAll_statement. cbn [from_option id]. intros -> -> ->.
    filter_cases; reflexivity.
  - unfold sqlForPartialUpdate, cols. intros -> r r' Hr Hr'.
    destruct (Nat.eqb _ _); [discriminate|].
    injection Hr as <-. injection Hr' as <-. reflexivity.
Qed.

Lemma sql_text_ignores_values_witness :
  query (Company.findAll_statement (Some filters_net))
  = query (Company.findAll_statement (Some filters_quoted))
  ∧ query (Job.findAll_statement (Some filters_net))
    = query (Job.findAll_statement (Some filters_quoted))
  ∧ ∀ r r', sqlForPartialUpdate [("name", JStr "a")] Company.jsToSql = Returns r →
            sqlForPartialUpdate [("name", JStr "b'; --")] Company.jsToSql = Returns r' →
            setCols r = setCols r'.
Proof.
  split; [|split].
  - refine (proj1 (sql_text_ignores_values filters_net filters_quoted [] []
                     Company.jsToSql) _ _ _); reflexivity.
  - refine (proj1 (proj2 (sql_text_ignores_values filters_net filters_quoted [] []
                            Company.jsToSql)) _ _ _); reflexivity.
  - refine (proj2 (proj2 (sql_text_ignores_values filters_net filters_quoted
                            [("name", JStr "a")] [("name", JStr "b'; --")]
                            Company.jsToSql)) _).
    reflexivity.
Defined.

(** X16: in the statement of [Company.findAll] and of [Job.findAll] the
    placeholders are exactly $1, ..., $n for n the number of parameters:
    the text holds as many dollar signs as there are parameters, and $i
    occurs once for each i up to n and not at all above it. *)
Theorem findAll_placeholders (arg : option (gmap string jsval)) :
  (occurrences "$" (query (Company.findAll_statement arg))
   = length (params (Company.findAll_statement arg))
   ∧ length (params (Company.findAll_statement arg)) ≤ 3
   ∧ ∀ i, i ∈ [1; 2; 3] →
       occurrences ("$" +:+ pretty i) (query (Company.findAll_statement arg))
       = if decide (i ≤ length (params (Company.findAll_statement arg)))
         then 1 else 0)
  ∧ (occurrences "$" (query (Job.findAll_statement arg))
     = length (params (Job.findAll_statement arg))
     ∧ length (params (Job.findAll_statement arg)) ≤ 2
     ∧ ∀ i, i ∈ [1; 2] →
         occurrences ("$" +:+ pretty i) (query (Job.findAll_statement arg))
         = if decide (i ≤ length (params (Job.findAll_statement arg)))
           then 1 else 0).
Proof.
  split.
  - unfold Company.findAll_statement. cbv zeta.
    filter_cases; (split; [vm_compute; reflexivity|]); (split; [cbn; lia|]);
      intros i Hi;
      repeat (apply elem_of_cons in Hi as [->|Hi]; [vm_compute; reflexivity|]);
      by apply not_elem_of_nil in Hi.
  - unfold Job.findAll_statement. cbv zeta.
    filter_cases; (split; [vm_compute; reflexivity|]); (split; [cbn; lia|]);
      intros i Hi;
      repeat (apply elem_of_cons in Hi as [->|Hi]; [vm_compute; reflexivity|]);
      by apply not_elem_of_nil in Hi.
Qed.
